(** * Wind-turbine registry collector: batching and correction rules

    A shallow embedding of [src/main.py]: the id-list query, the batch loop
    over [range(0, len(object_ids), batch_size)], the concatenation with a
    fresh 0-based index, and the six correction rules applied to the table
    before it is written.

    Python floats are binary64, so they are modelled by Rocq's primitive
    floats, whose operations are the IEEE 754 ones.  Tables are lists of
    labelled rows: the label is the pandas row index. *)

From Stdlib Require Import ZArith Bool String Ascii List Lia Arith.
From Stdlib Require Import Floats DecimalString DecimalZ.
Import ListNotations.

Set Warnings "-inexact-float,-register-all".
Local Open Scope string_scope.
Local Open Scope list_scope.
Local Open Scope nat_scope.

(* ================================================================== *)
(** * Part I: definitions *)
(* ================================================================== *)

(** ** Python values *)

(** The values a decoded JSON document or a table cell may hold. *)
Inductive pyval : Type :=
| PyNone
| PyInt (z : Z)
| PyFloat (f : float)
| PyStr (s : string)
| PyList (l : list pyval)
| PyDict (kvs : list (string * pyval)).

(** Exceptions the script can die with. *)
Inductive exn : Type :=
| ConnectionError
| HTTPError (status : Z)
| JSONDecodeError
| KeyError (k : string)
| TypeError
| ValueError
| DriverError.

(** ** Power correction *)

Module Power.
Local Open Scope float_scope.

(** [CorrectNominalPower], lines 47-57.  [power > 100] is [100 < power];
    the integer literals 100 and 1000 are exact as binary64. *)
Definition CorrectNominalPower (power : float) : float :=
  if 100 <? power then power / 1000
  else if power <? 0.05 then power * 1000
  else power.

(** Membership of the closed interval [0.05, 100], as Python would test it
    ([0.05 <= p <= 100]); a NaN is not a member. *)
Definition in_range (p : float) : bool :=
  (0.05 <=? p) && (p <=? 100).

End Power.
Export Power.

(** ** Chunking of the identifier list *)

Module Batching.

(** The loop [i = start; while i < stop: yield i; i += step] behind
    [range(start, stop, step)] for a positive step, with the number of
    remaining iterations bounded by [fuel]. *)
Fixpoint range_loop (fuel i stop step : nat) : list nat :=
  match fuel with
  | O => []
  | S fuel' =>
      if i <? stop then i :: range_loop fuel' (i + step) stop step else []
  end.

(** [range(start, stop, step)], step positive: at most [stop - start]
    values are produced, so that much fuel is enough. *)
Definition range (start stop step : nat) : list nat :=
  range_loop (stop - start) start stop step.

(** The slice [l[i:j]] of a list, for [0 <= i <= j]: Python clamps both
    ends to the length. *)
Definition slice {A : Type} (l : list A) (i j : nat) : list A :=
  firstn (j - i) (skipn i l).

Definition batch_size : nat := 1000.

(** The successive values of [batch_ids] in the loop of lines 70-74, for a
    batch size [B]. *)
Definition batches_of {A : Type} (B : nat) (object_ids : list A)
  : list (list A) :=
  map (fun i => slice object_ids i (i + B))
      (range 0 (length object_ids) B).

Definition batches {A : Type} (object_ids : list A) : list (list A) :=
  batches_of batch_size object_ids.

End Batching.
Export Batching.

(** ** Records and tables *)

(** A table cell: a missing value, an integer, a float or a text. *)
Inductive cell : Type :=
| CNone
| CInt (z : Z)
| CFloat (f : float)
| CStr (s : string).

(** One feature of a GeoJSON answer.  The text attributes are a string or
    null; [OPERACAO] is kept as a general cell because line 133 takes its
    [str]; [other] holds the attributes no rule reads. *)
Record feature : Type := mkFeature {
  NOME_EOL : option string;
  DEN_AEG : option string;
  UF : option string;
  OPERACAO : cell;
  POT_MW : float;
  geometry : float * float;
  other : list (string * cell)
}.

(** A row of [gdf_total] once lines 81-82 have added the two coordinate
    columns.  (The formatted timestamp of lines 85-87 is a further column
    that no rule reads or writes; it is left out.) *)
Record row : Type := mkRow {
  props : feature;
  longitude : float;
  latitude : float
}.

(** A data frame: rows in order, each with its index label. *)
Definition frame (A : Type) : Type := list (nat * A).
Definition table : Type := frame row.

Definition index {A : Type} (t : frame A) : list nat := map fst t.

(** ** The query service and the script's effects *)

Module Http.

Inductive request : Type :=
| IdsQuery
| BatchQuery (object_ids : pyval).

(** An HTTP answer: its status, and what the two decoders used by the
    script make of its body ([None] when the body does not decode). *)
Record response : Type := mkResponse {
  status_code : Z;
  json_body : option pyval;
  geo_body : option (list feature)
}.

(** The service: given the requests already served and a new one, either
    the transport fails or an answer comes back. *)
Definition service : Type := list request -> request -> exn + response.

(** Computations of the script: the log of requests issued so far is
    threaded through, and an exception ends the run. *)
Definition M (A : Type) : Type := list request -> list request * (exn + A).

Definition ret {A : Type} (a : A) : M A := fun log => (log, inr a).
Definition raise {A : Type} (e : exn) : M A := fun log => (log, inl e).
Definition bind {A B : Type} (m : M A) (k : A -> M B) : M B :=
  fun log =>
    match m log with
    | (log', inl e) => (log', inl e)
    | (log', inr a) => k a log'
    end.

Declare Scope script_scope.
Delimit Scope script_scope with script.
Notation "x <- m ;; k" := (bind m (fun x => k))
  (at level 61, m at next level, right associativity) : script_scope.
Notation "m ;;; k" := (bind m (fun _ => k))
  (at level 61, right associativity) : script_scope.
Local Open Scope script_scope.

(** [requests.get(url, params=...)]. *)
Definition requests_get (srv : service) (q : request) : M response :=
  fun log =>
    match srv log q with
    | inl e => (log ++ [q], inl e)
    | inr r => (log ++ [q], inr r)
    end.

(** [Response.json()]. *)
Definition response_json (r : response) : M pyval :=
  match json_body r with
  | Some v => ret v
  | None => raise JSONDecodeError
  end.

(** [Response.raise_for_status()]: statuses 400 to 599 raise. *)
Definition raise_for_status (r : response) : M unit :=
  if ((400 <=? status_code r) && (status_code r <? 600))%Z
  then raise (HTTPError (status_code r))
  else ret tt.

(** [gpd.read_file(text)]. *)
Definition read_file (r : response) : M (list feature) :=
  match geo_body r with
  | Some fs => ret fs
  | None => raise DriverError
  end.

Fixpoint dict_get (kvs : list (string * pyval)) (k : string) : option pyval :=
  match kvs with
  | [] => None
  | (k', v) :: kvs' => if String.eqb k' k then Some v else dict_get kvs' k
  end.

(** [v[k]] for a text key [k]. *)
Definition getitem (v : pyval) (k : string) : M pyval :=
  match v with
  | PyDict kvs =>
      match dict_get kvs k with
      | Some x => ret x
      | None => raise (KeyError k)
      end
  | _ => raise TypeError
  end.

(** [len(v)]. *)
Definition py_len (v : pyval) : M nat :=
  match v with
  | PyList l => ret (length l)
  | PyStr s => ret (String.length s)
  | PyDict kvs => ret (length kvs)
  | _ => raise TypeError
  end.

(** [v[i:j]] for [0 <= i <= j]. *)
Definition py_slice (v : pyval) (i j : nat) : M pyval :=
  match v with
  | PyList l => ret (PyList (slice l i j))
  | PyStr s => ret (PyStr (String.substring i (j - i) s))
  | _ => raise TypeError
  end.

(** [FetchAllIds], lines 19-30. *)
Definition FetchAllIds (srv : service) : M pyval :=
  resp <- requests_get srv IdsQuery ;;
  result <- response_json resp ;;
  ids <- getitem result "objectIds" ;;
  ret ids.

(** [FetchObjectsBatch], lines 32-45.  The [where] clause is determined by
    [object_ids], which the request carries as it is. *)
Definition FetchObjectsBatch (srv : service) (object_ids : pyval)
  : M (list feature) :=
  result <- requests_get srv (BatchQuery object_ids) ;;
  raise_for_status result ;;;
  read_file result.

(** The body of the [for] loop of lines 70-74, over the values of [i]. *)
Fixpoint fetch_loop (srv : service) (object_ids : pyval) (starts : list nat)
  (gdfs : list (list feature)) : M (list (list feature)) :=
  match starts with
  | [] => ret gdfs
  | i :: starts' =>
      batch_ids <- py_slice object_ids i (i + batch_size) ;;
      gdf_batch <- FetchObjectsBatch srv batch_ids ;;
      fetch_loop srv object_ids starts' (gdfs ++ [gdf_batch])
  end.

End Http.
Export Http.

(** ** The correction rules *)

Module Corrector.

Definition set_UF (uf : option string) (r : row) : row :=
  let p := props r in
  mkRow (mkFeature (NOME_EOL p) (DEN_AEG p) uf (OPERACAO p) (POT_MW p)
                   (geometry p) (other p))
        (longitude r) (latitude r).

Definition set_POT_MW (w : float) (r : row) : row :=
  let p := props r in
  mkRow (mkFeature (NOME_EOL p) (DEN_AEG p) (UF p) (OPERACAO p) w
                   (geometry p) (other p))
        (longitude r) (latitude r).

Definition set_OPERACAO (c : cell) (r : row) : row :=
  let p := props r in
  mkRow (mkFeature (NOME_EOL p) (DEN_AEG p) (UF p) c (POT_MW p)
                   (geometry p) (other p))
        (longitude r) (latitude r).

(** The element of the mask [gdf_total["NOME_EOL"] == name]: a null name
    equals no text. *)
Definition name_is (name : string) (r : row) : bool :=
  match NOME_EOL (props r) with
  | Some n => String.eqb n name
  | None => false
  end.

(** [gdf_total[gdf_total["NOME_EOL"] != name]]: rows keep their labels. *)
Definition drop_named (name : string) (t : table) : table :=
  filter (fun ir => negb (name_is name (snd ir))) t.

(** A column-wise statement rewrites every row and keeps its label. *)
Definition on_rows (f : row -> row) (t : table) : table :=
  map (fun ir => (fst ir, f (snd ir))) t.

(** [gdf_total.loc[gdf_total["NOME_EOL"] == name, "UF"] = uf]. *)
Definition override_UF (name uf : string) (t : table) : table :=
  map (fun ir => if name_is name (snd ir)
                 then (fst ir, set_UF (Some uf) (snd ir)) else ir) t.

(** What that assignment does to one row. *)
Definition override_row (name uf : string) (r : row) : row :=
  if name_is name r then set_UF (Some uf) r else r.

(** [pd.isna(x)] on a scalar. *)
Definition pd_isna (x : cell) : bool :=
  match x with
  | CNone => true
  | CFloat f => PrimFloat.is_nan f
  | _ => false
  end.

(** Equality of two entries of a text column when duplicates are looked
    for: two nulls count as equal. *)
Definition text_same (a b : option string) : bool :=
  match a, b with
  | Some x, Some y => String.eqb x y
  | None, None => true
  | _, _ => false
  end.

(** Equality of two entries of a float column when duplicates are looked
    for: numerically equal, or both NaN. *)
Definition float_same (a b : float) : bool :=
  (PrimFloat.eqb a b || (PrimFloat.is_nan a && PrimFloat.is_nan b))%bool.

(** A signed zero of the specification floats. *)
Definition sf_zero (x : spec_float) : bool :=
  match x with
  | S754_zero _ => true
  | _ => false
  end.

(** Two rows agree on the subset
    [["NOME_EOL", "DEN_AEG", "latitude", "longitude"]]. *)
Definition same_key (a b : row) : bool :=
  text_same (NOME_EOL (props a)) (NOME_EOL (props b))
  && text_same (DEN_AEG (props a)) (DEN_AEG (props b))
  && float_same (latitude a) (latitude b)
  && float_same (longitude a) (longitude b).

(** [drop_duplicates(subset=...)] with the default [keep="first"]: rows
    are visited in order, [seen] holds the rows kept so far, and a row
    whose key is already among them is dropped.  Labels are kept. *)
Fixpoint drop_duplicates_from (seen : list row) (t : table) : table :=
  match t with
  | [] => []
  | (i, r) :: t' =>
      if existsb (same_key r) seen
      then drop_duplicates_from seen t'
      else (i, r) :: drop_duplicates_from (seen ++ [r]) t'
  end.

Definition drop_duplicates (t : table) : table := drop_duplicates_from [] t.

Section WithRepr.

(** [repr] of a float, which Python's [str] returns for it. *)
Variable float_repr : float -> string.

(** [str(x)] on a scalar. *)
Definition py_str (x : cell) : string :=
  match x with
  | CNone => "None"
  | CInt z => NilEmpty.string_of_int (Z.to_int z)
  | CFloat f => float_repr f
  | CStr s => s
  end.

(** The lambda of lines 132-134. *)
Definition normalize_operacao (x : cell) : cell :=
  if pd_isna x then CStr "Sem informação"
  else if String.eqb (py_str x) "1" then CStr "Sim"
  else x.

(** The six statements of lines 127-136, one rule each. *)
Definition rule_exclusion : table -> table :=
  drop_named "Serra de Gentio do Ouro XXIII".

Definition rule_uf_asa_branca : table -> table :=
  override_UF "Asa Branca III" "RN".

Definition rule_uf_barra : table -> table :=
  override_UF "Barra XI" "MG".

(** Line 130 on one row. *)
Definition power_row (r : row) : row :=
  set_POT_MW (CorrectNominalPower (POT_MW (props r))) r.

Definition rule_power : table -> table := on_rows power_row.

(** Lines 131-135 on one row. *)
Definition operacao_row (r : row) : row :=
  set_OPERACAO (normalize_operacao (OPERACAO (props r))) r.

Definition rule_operacao : table -> table := on_rows operacao_row.

Definition rule_dedup : table -> table := drop_duplicates.

Definition rules : list (table -> table) :=
  [rule_exclusion; rule_uf_asa_branca; rule_uf_barra;
   rule_power; rule_operacao; rule_dedup].

(** What lines 128-135 together do to one row. *)
Definition fix_row (r : row) : row :=
  operacao_row (power_row (override_row "Barra XI" "MG"
    (override_row "Asa Branca III" "RN" r))).

(** Lines 127-136 in their order. *)
Definition corrections (t : table) : table :=
  rule_dedup (rule_operacao (rule_power (rule_uf_barra
    (rule_uf_asa_branca (rule_exclusion t))))).

End WithRepr.

End Corrector.
Export Corrector.

(** ** The script *)

Module Script.
Local Open Scope script_scope.

(** [pd.concat(gdfs, ignore_index=True)]: an empty list of frames is an
    error; otherwise the rows are stacked and labelled 0, 1, 2, ...
    Cells are stacked as they are: the unification of column types across
    frames is outside the model. *)
Definition reset_index {A : Type} (l : list A) : frame A :=
  combine (seq 0 (length l)) l.

Definition pd_concat (gdfs : list (list feature)) : M (frame feature) :=
  match gdfs with
  | [] => raise ValueError
  | _ => ret (reset_index (concat gdfs))
  end.

(** Lines 81-82: the coordinate columns, read off the geometry. *)
Definition with_coordinates (f : feature) : row :=
  mkRow f (fst (geometry f)) (snd (geometry f)).

Definition add_coordinates (t : frame feature) : table :=
  map (fun ix => (fst ix, with_coordinates (snd ix))) t.

(** The block under [if __name__ == "__main__"]; the result is the table
    handed to [to_csv], index column included.  Lines 85-87 and the
    look-up of columns by name are outside the model, which therefore
    speaks for the runs in which they do not raise. *)
Definition main (float_repr : float -> string) (srv : service) : M table :=
  object_ids <- FetchAllIds srv ;;
  n <- py_len object_ids ;;
  gdfs <- fetch_loop srv object_ids (range 0 n batch_size) [] ;;
  gdf_total <- pd_concat gdfs ;;
  ret (corrections float_repr (add_coordinates gdf_total)).

(** A run starts with an empty request log. *)
Definition run (float_repr : float -> string) (srv : service)
  : list request * (exn + table) :=
  main float_repr srv [].

End Script.
Export Script.

(** ** Whether an index is the plain range *)

(** [subseq l1 l2]: [l1] is [l2] with some elements left out. *)
Inductive subseq {A : Type} : list A -> list A -> Prop :=
| subseq_nil : subseq [] []
| subseq_skip (x : A) (l1 l2 : list A) :
    subseq l1 l2 -> subseq l1 (x :: l2)
| subseq_keep (x : A) (l1 l2 : list A) :
    subseq l1 l2 -> subseq (x :: l1) (x :: l2).

(** An index is contiguous when it is 0, 1, ..., m - 1. *)
Definition contiguous (idx : list nat) : Prop := idx = seq 0 (length idx).

(** ** Sample data *)

Module Samples.
Local Open Scope float_scope.

(** A stand-in for [repr] on floats, right on the one value used below. *)
Definition sample_repr (f : float) : string :=
  if f =? 1 then "1.0" else "nan".

Definition turbine (name den : string) (pot x y : float) : feature :=
  mkFeature (Some name) (Some den) (Some "BA") (CStr "1") pot (x, y) [].

Definition as_row (f : feature) : row := with_coordinates f.

Definition serra_do_1 : feature :=
  turbine "Serra do Gentio do Ouro XXIII" "AEG-01" 4.2 (-42.5) (-11.25).

(** Same name, designation and position as [serra_do_1], other power. *)
Definition serra_do_1_again : feature :=
  turbine "Serra do Gentio do Ouro XXIII" "AEG-01" 4200 (-42.5) (-11.25).

Definition serra_de_1 : feature :=
  turbine "Serra de Gentio do Ouro XXIII" "AEG-01" 4.2 (-42.5) (-11.25).

Definition juramento_1 : feature :=
  turbine "Juramento" "AEG-07" 0.006 (-43.5) (-16.75).

Definition ids1500 : list pyval :=
  map (fun n => PyInt (Z.of_nat n)) (seq 1 1500).

(** A service that answers every request with status 200: the id list
    [ids], and one turbine per batch. *)
Definition steady_service (ids : list pyval) : service :=
  fun _ q =>
    match q with
    | IdsQuery =>
        inr (mkResponse 200 (Some (PyDict [("objectIds", PyList ids)])) None)
    | BatchQuery _ => inr (mkResponse 200 None (Some [juramento_1]))
    end.

(** A service whose id-list answer has status 500 and a body that still
    decodes to an object with an [objectIds] key. *)
Definition failing_ids_service : service :=
  fun _ q =>
    match q with
    | IdsQuery =>
        inr (mkResponse 500
               (Some (PyDict [("objectIds",
                               PyList [PyInt 1; PyInt 2; PyInt 3])])) None)
    | BatchQuery _ => inr (mkResponse 200 None (Some [juramento_1]))
    end.

(** The same answers, with the error status on the batch query instead. *)
Definition failing_batch_service : service :=
  fun _ q =>
    match q with
    | IdsQuery =>
        inr (mkResponse 200
               (Some (PyDict [("objectIds",
                               PyList [PyInt 1; PyInt 2; PyInt 3])])) None)
    | BatchQuery _ => inr (mkResponse 500 None (Some [juramento_1]))
    end.

(** A service with two identifiers whose one batch holds the same turbine
    twice. *)
Definition twin_service : service :=
  fun _ q =>
    match q with
    | IdsQuery =>
        inr (mkResponse 200
               (Some (PyDict [("objectIds", PyList [PyInt 1; PyInt 2])])) None)
    | BatchQuery _ =>
        inr (mkResponse 200 None (Some [serra_do_1; serra_do_1_again]))
    end.

End Samples.

(** ** Further vocabulary for the script *)

(** The request the loop sends at the value [i] of its variable, for a
    list of identifiers. *)
Definition chunk_request (l : list pyval) (i : nat) : request :=
  BatchQuery (PyList (slice l i (i + batch_size))).

(** [sep.join(strs)]. *)
Fixpoint join (sep : string) (strs : list string) : string :=
  match strs with
  | [] => ""
  | s :: rest =>
      match rest with
      | [] => s
      | _ => s ++ sep ++ join sep rest
      end
  end.

(** [str(z)] for an integer [z]. *)
Definition int_str (z : Z) : string := NilEmpty.string_of_int (Z.to_int z).

(** The [where] clause of line 36, from the [str] of each identifier. *)
Definition where_condition (strs : list string) : string :=
  "OBJECTID IN (" ++ join "," strs ++ ")".

(** What follows the first element in a joined text. *)
Definition join_tail (rest : list string) : string :=
  match rest with
  | [] => ""
  | _ => "," ++ join "," rest
  end.

(** No character of the text is a comma. *)
Fixpoint comma_free (s : string) : bool :=
  match s with
  | EmptyString => true
  | String c s' => negb (Ascii.eqb c ",") && comma_free s'
  end.

(** The frames decoded from the answers to the batch requests of a log,
    in the order of the requests; each request is put to the service with
    the requests served before it. *)
Fixpoint frames_after (srv : service) (served rest : list request)
  : list (list feature) :=
  match rest with
  | [] => []
  | q :: rest' =>
      match q with
      | IdsQuery => []
      | BatchQuery _ =>
          match srv served q with
          | inr r =>
              match geo_body r with
              | Some fs => [fs]
              | None => []
              end
          | inl _ => []
          end
      end ++ frames_after srv (served ++ [q]) rest'
  end.

(** The rows a run has fetched, batch after batch: the row at position
    [i] is the one [pd.concat] labels [i]. *)
Definition fetched (srv : service) (log : list request) : list feature :=
  concat (frames_after srv [] log).

(** Whether the fetched row at position [i] gets through lines 127 and
    136: it does not bear the excluded name, and no row fetched before it
    has its (NOME_EOL, DEN_AEG, latitude, longitude). *)
Definition survives (fs : list feature) (i : nat) : bool :=
  match nth_error fs i with
  | Some f =>
      negb (name_is "Serra de Gentio do Ouro XXIII" (with_coordinates f))
      && negb (existsb (same_key (with_coordinates f))
                       (map with_coordinates (firstn i fs)))
  | None => false
  end.

Module MoreSamples.

(** A service with three identifiers whose one batch holds a turbine, the
    same turbine again, and another one. *)
Definition gap_service : service :=
  fun _ q =>
    match q with
    | IdsQuery =>
        inr (mkResponse 200
               (Some (PyDict [("objectIds",
                               PyList [PyInt 1; PyInt 2; PyInt 3])])) None)
    | BatchQuery _ =>
        inr (mkResponse 200 None
               (Some [Samples.serra_do_1; Samples.serra_do_1_again;
                      Samples.juramento_1]))
    end.

(** A service that answers the first batch request and fails on the
    second. *)
Definition second_batch_fails (ids : list pyval) : service :=
  fun log q =>
    match q with
    | IdsQuery =>
        inr (mkResponse 200 (Some (PyDict [("objectIds", PyList ids)])) None)
    | BatchQuery _ =>
        match log with
        | [_] => inr (mkResponse 200 None (Some [Samples.juramento_1]))
        | _ => inr (mkResponse 503 None None)
        end
    end.

End MoreSamples.

(* ================================================================== *)
(** * Part II: theorems *)
(* ================================================================== *)

(** ** Power correction *)

Section PowerFacts.
Local Open Scope float_scope.

(** Comparison of specification floats is antisymmetric. *)
Lemma SFcompare_swap (x y : spec_float) :
  SFcompare y x = option_map CompOpp (SFcompare x y).
Proof.
  destruct x as [sx | sx | | sx mx ex], y as [sy | sy | | sy my ey];
    simpl; try reflexivity;
    try (destruct sx; reflexivity); try (destruct sy; reflexivity);
    try (destruct sx, sy; reflexivity).
  destruct sx, sy; simpl; try reflexivity;
    rewrite (Z.compare_antisym ex ey);
    destruct (ex ?= ey)%Z eqn:E; simpl; try reflexivity.
  - f_equal.
    change (PosDef.Pos.compare_cont Eq mx my) with (Pos.compare_cont Eq mx my).
    change (PosDef.Pos.compare_cont Eq my mx) with (Pos.compare_cont Eq my mx).
    rewrite (Pos.compare_cont_antisym mx my Eq). reflexivity.
  - f_equal.
    change (PosDef.Pos.compare_cont Eq mx my) with (Pos.compare_cont Eq mx my).
    change (PosDef.Pos.compare_cont Eq my mx) with (Pos.compare_cont Eq my mx).
    rewrite (Pos.compare_cont_antisym mx my Eq). reflexivity.
Qed.

(** [x <= y] rules out [y < x]. *)
Lemma leb_not_ltb (x y : float) : (x <=? y) = true -> (y <? x) = false.
Proof.
  rewrite leb_spec, ltb_spec. unfold SFleb, SFltb.
  rewrite (SFcompare_swap (Prim2SF x) (Prim2SF y)).
  destruct (SFcompare (Prim2SF x) (Prim2SF y)) as [[ | | ] | ];
    simpl; intros H; try reflexivity; discriminate H.
Qed.

(** A value of the interval takes the last branch. *)
Lemma in_range_fixed (p : float) :
  in_range p = true -> CorrectNominalPower p = p.
Proof.
  unfold in_range, CorrectNominalPower. intros H.
  apply andb_true_iff in H. destruct H as [Hlo Hhi].
  rewrite (leb_not_ltb _ _ Hhi), (leb_not_ltb _ _ Hlo). reflexivity.
Qed.

End PowerFacts.

Section PowerClaims.
Local Open Scope float_scope.

(** A value below 0.05 is not above 100. *)
Lemma below_not_above (p : float) : (p <? 0.05) = true -> (100 <? p) = false.
Proof.
  rewrite !ltb_spec.
  change (Prim2SF 0.05) with (S754_finite false 7205759403792794 (-57)).
  change (Prim2SF 100) with (S754_finite false 7036874417766400 (-46)).
  unfold SFltb.
  destruct (Prim2SF p) as [s | s | | s m e]; cbn [SFcompare];
    try reflexivity.
  - destruct s; intros H; [reflexivity | discriminate H].
  - destruct s; [reflexivity |].
    destruct (Z.compare_spec e (-57)) as [E1 | E1 | E1];
      destruct (Z.compare_spec (-46) e) as [E2 | E2 | E2];
      try reflexivity; try (intros H; discriminate H); lia.
Qed.

(** C2 (amended).  [CorrectNominalPower p] is [p / 1000] when [p > 100],
    [p * 1000] when [p < 0.05], and [p] when neither holds; hence every
    [p] of the closed interval [0.05, 100] is returned unchanged.  The
    interval is contained in the set of fixed points, which holds zero
    as well. *)
Theorem CorrectNominalPower_branches (p : float) :
  ((100 <? p) = true -> CorrectNominalPower p = p / 1000) /\
  ((p <? 0.05) = true -> CorrectNominalPower p = p * 1000) /\
  ((100 <? p) = false -> (p <? 0.05) = false -> CorrectNominalPower p = p) /\
  (in_range p = true -> CorrectNominalPower p = p) /\
  CorrectNominalPower 0 = 0.
Proof.
  unfold CorrectNominalPower at 1 2 3 4.
  split; [| split; [| split; [| split]]].
  - intros H. rewrite H. reflexivity.
  - intros H. rewrite (below_not_above p H), H. reflexivity.
  - intros H1 H2. rewrite H1, H2. reflexivity.
  - apply in_range_fixed.
  - reflexivity.
Qed.

Lemma CorrectNominalPower_branches_witness :
  CorrectNominalPower 4200 = 4200 / 1000 /\
  CorrectNominalPower 0.0042 = 0.0042 * 1000 /\
  CorrectNominalPower 4.2 = 4.2.
Proof.
  split; [| split].
  - apply (proj1 (CorrectNominalPower_branches 4200)). reflexivity.
  - apply (proj1 (proj2 (CorrectNominalPower_branches 0.0042))). reflexivity.
  - apply (proj1 (proj2 (proj2 (proj2 (CorrectNominalPower_branches 4.2))))).
    reflexivity.
Defined.

(** C2, as stated, fails: zero is a fixed point of the correction although
    it lies outside the interval [0.05, 100] (it is multiplied by 1000,
    which leaves it zero). *)
Lemma zero_is_fixed_outside_range :
  CorrectNominalPower 0 = 0 /\ in_range 0 = false /\
  ~ (forall p : float, CorrectNominalPower p = p -> in_range p = true).
Proof.
  split; [reflexivity | split; [reflexivity |]].
  intros H. specialize (H 0 eq_refl). discriminate H.
Qed.

(** C4.  When the corrected value lies in [0.05, 100], correcting it again
    changes nothing; 4200 and 0.0042 are both sent to 4.2, which is
    stable. *)
Theorem CorrectNominalPower_twice (p : float) :
  (in_range (CorrectNominalPower p) = true ->
   CorrectNominalPower (CorrectNominalPower p) = CorrectNominalPower p) /\
  CorrectNominalPower 4200 = 4.2 /\
  CorrectNominalPower 0.0042 = 4.2 /\
  CorrectNominalPower 4.2 = 4.2.
Proof.
  split; [apply in_range_fixed | repeat split; reflexivity].
Qed.

Lemma CorrectNominalPower_twice_witness :
  in_range (CorrectNominalPower 4200) = true /\
  CorrectNominalPower (CorrectNominalPower 4200) = CorrectNominalPower 4200.
Proof.
  split; [reflexivity |].
  apply (proj1 (CorrectNominalPower_twice 4200)). reflexivity.
Defined.

End PowerClaims.

(** ** Chunking *)

Section BatchingFacts.

Context {A : Type}.
Variable B : nat.
Hypothesis B_pos : 0 < B.

(** Every value of the loop variable is below the stop value. *)
Lemma range_loop_below (fuel i stop x : nat) :
  In x (range_loop fuel i stop B) -> x < stop.
Proof.
  revert i. induction fuel as [| fuel IH]; intros i; simpl; [tauto |].
  destruct (Nat.ltb_spec i stop) as [Hlt | Hge]; simpl; [| tauto].
  intros [<- | Hin]; [exact Hlt | exact (IH _ Hin)].
Qed.

(** The k-th value of the loop variable is [i + k * B]. *)
Lemma range_loop_nth (fuel i stop k : nat) :
  k < length (range_loop fuel i stop B) ->
  nth_error (range_loop fuel i stop B) k = Some (i + k * B).
Proof.
  revert i k. induction fuel as [| fuel IH]; intros i k; simpl; [lia |].
  destruct (Nat.ltb_spec i stop) as [Hlt | Hge]; simpl; [| lia].
  destruct k as [| k]; simpl; intros Hk.
  - f_equal. lia.
  - rewrite IH by lia. f_equal. lia.
Qed.

(** With enough fuel the loop runs [ceil((stop - i) / B)] times. *)
Lemma range_loop_length (fuel i stop : nat) :
  stop - i <= fuel ->
  length (range_loop fuel i stop B) = (stop - i + (B - 1)) / B.
Proof.
  revert i. induction fuel as [| fuel IH]; intros i Hfuel; simpl.
  - replace (stop - i) with 0 by lia. simpl.
    symmetry. apply Nat.div_small. lia.
  - destruct (Nat.ltb_spec i stop) as [Hlt | Hge]; simpl.
    + rewrite IH by lia.
      destruct (Nat.le_gt_cases B (stop - i)) as [Hbig | Hsmall].
      * replace (stop - i + (B - 1)) with (stop - (i + B) + (B - 1) + 1 * B)
          by lia.
        rewrite Nat.div_add by lia. lia.
      * replace (stop - (i + B)) with 0 by lia. simpl.
        rewrite (Nat.div_small (B - 1) B) by lia.
        apply (Nat.div_unique _ _ 1 (stop - i - 1)); lia.
    + replace (stop - i) with 0 by lia. simpl.
      symmetry. apply Nat.div_small. lia.
Qed.

(** The chunks cut from position [i] on, put back together, are the list
    from position [i] on. *)
Lemma range_loop_concat (l : list A) (fuel i : nat) :
  length l - i <= fuel ->
  concat (map (fun j => slice l j (j + B)) (range_loop fuel i (length l) B))
  = skipn i l.
Proof.
  revert i. induction fuel as [| fuel IH]; intros i Hfuel; simpl.
  - symmetry. apply skipn_all2. lia.
  - destruct (Nat.ltb_spec i (length l)) as [Hlt | Hge]; simpl.
    + rewrite IH by lia. unfold slice.
      replace (i + B - i) with B by lia.
      replace (i + B) with (B + i) by lia.
      rewrite <- skipn_skipn. apply firstn_skipn.
    + symmetry. apply skipn_all2. lia.
Qed.

Lemma batches_of_length (l : list A) :
  length (batches_of B l) = (length l + (B - 1)) / B.
Proof.
  unfold batches_of, range. rewrite length_map, range_loop_length by lia.
  f_equal. lia.
Qed.

Lemma batches_of_concat (l : list A) : concat (batches_of B l) = l.
Proof.
  unfold batches_of, range. rewrite range_loop_concat by lia. reflexivity.
Qed.

(** The k-th chunk is the slice [l[k*B : k*B + B]], and it is not empty. *)
Lemma batches_of_nth (l : list A) (k : nat) :
  k < length (batches_of B l) ->
  nth_error (batches_of B l) k = Some (firstn B (skipn (k * B) l)) /\
  k * B < length l.
Proof.
  unfold batches_of, range. rewrite length_map. intros Hk.
  rewrite nth_error_map, range_loop_nth by exact Hk. simpl.
  split.
  - unfold slice. f_equal. f_equal. lia.
  - apply (range_loop_below (length l - 0) 0 (length l) (k * B)).
    apply (nth_error_In _ k). rewrite range_loop_nth by exact Hk.
    reflexivity.
Qed.

(** The size of the k-th chunk: [B], except that the last one takes what
    is left. *)
Lemma batches_of_sizes (l : list A) (k : nat) :
  k < length (batches_of B l) ->
  exists c, nth_error (batches_of B l) k = Some c /\
            1 <= length c <= B /\
            (S k < length (batches_of B l) -> length c = B) /\
            (S k = length (batches_of B l) -> length c = length l - k * B).
Proof.
  intros Hk. destruct (batches_of_nth l k Hk) as [Hnth Hlt].
  exists (firstn B (skipn (k * B) l)). split; [exact Hnth |].
  rewrite length_firstn, length_skipn.
  split; [lia | split].
  - intros HSk. destruct (batches_of_nth l (S k) HSk) as [_ Hlt'].
    simpl in Hlt'. lia.
  - intros Hlast. rewrite batches_of_length in Hlast.
    assert (Hle : length l + (B - 1) < (S k) * B + B).
    { rewrite Hlast.
      pose proof (Nat.div_mod_eq (length l + (B - 1)) B) as E.
      pose proof (Nat.mod_upper_bound (length l + (B - 1)) B) as U.
      nia. }
    simpl in Hle. lia.
Qed.

End BatchingFacts.

Section LoopFacts.
Local Open Scope script_scope.

(** Every request goes to the end of the log. *)
Lemma requests_get_log (srv : service) (q : request) (log : list request) :
  fst (requests_get srv q log) = log ++ [q].
Proof.
  unfold requests_get. destruct (srv log q); reflexivity.
Qed.

Lemma FetchObjectsBatch_log (srv : service) (ids : pyval)
  (log : list request) :
  fst (FetchObjectsBatch srv ids log) = log ++ [BatchQuery ids].
Proof.
  unfold FetchObjectsBatch, bind.
  pose proof (requests_get_log srv (BatchQuery ids) log) as Hlog.
  destruct (requests_get srv (BatchQuery ids) log) as [log1 [e | r]];
    simpl in Hlog; subst log1; [reflexivity |].
  unfold raise_for_status, read_file.
  destruct ((400 <=? status_code r) && (status_code r <? 600))%Z;
    [reflexivity |].
  unfold ret, raise. destruct (geo_body r); reflexivity.
Qed.

(** A loop over a list that ends normally has sent one batch request per
    value of the loop variable, in order, each carrying the slice cut at
    that value. *)
Lemma fetch_loop_requests (srv : service) (l : list pyval)
  (starts : list nat) (gdfs res : list (list feature))
  (log log' : list request) :
  fetch_loop srv (PyList l) starts gdfs log = (log', inr res) ->
  log' = log ++ map (fun i => BatchQuery (PyList (slice l i (i + batch_size))))
                    starts
  /\ length res = length gdfs + length starts.
Proof.
  revert gdfs log. induction starts as [| i starts IH]; intros gdfs log.
  - simpl. unfold ret. intros H. inversion H; subst.
    rewrite app_nil_r. split; [reflexivity | lia].
  - cbn [fetch_loop map]. unfold bind at 1. cbn [py_slice]. unfold ret at 1.
    unfold bind at 1.
    pose proof (FetchObjectsBatch_log srv
                  (PyList (slice l i (i + batch_size))) log) as Hlog.
    destruct (FetchObjectsBatch srv (PyList (slice l i (i + batch_size))) log)
      as [log1 [e | gdf_batch]]; simpl in Hlog; subst log1.
    + intros H. discriminate H.
    + intros H. apply IH in H. destruct H as [-> Hlen].
      rewrite <- app_assoc. split; [reflexivity |].
      rewrite Hlen, length_app. simpl. lia.
Qed.

End LoopFacts.

Section BatchingClaims.

Lemma batch_size_pos : 0 < batch_size.
Proof. unfold batch_size. lia. Qed.

(** 1500 identifiers make two chunks, of 1000 and of 500. *)
Lemma batches_1500 {A : Type} (l : list A) :
  length l = 1500 -> map (@length A) (batches l) = [1000; 500].
Proof.
  intros Hlen. unfold batches.
  pose proof (batches_of_length batch_size batch_size_pos l) as Hn.
  rewrite Hlen in Hn.
  replace ((1500 + (batch_size - 1)) / batch_size) with 2 in Hn
    by (vm_compute; reflexivity).
  destruct (batches_of_sizes batch_size batch_size_pos l 0) as (c0 & H0 & _ & F0 & _);
    [lia |].
  destruct (batches_of_sizes batch_size batch_size_pos l 1) as (c1 & H1 & _ & _ & L1);
    [lia |].
  destruct (batches_of batch_size l) as [| x0 [| x1 [| x2 rest]]];
    simpl in Hn; try discriminate Hn.
  simpl in H0, H1. inversion H0; inversion H1; subst x0 x1.
  simpl. rewrite F0 by (simpl; lia). rewrite L1 by reflexivity.
  rewrite Hlen. vm_compute. reflexivity.
Qed.

(** C1.  With the batch size 1000 the loop cuts a list of N identifiers
    into ceil(N / 1000) chunks; the k-th chunk is the contiguous slice
    starting at position 1000 * k, it is not empty and has at most 1000
    elements, exactly 1000 unless it is the last; the chunks in order
    concatenate to the list, so that every identifier sits in exactly one
    chunk at its place; a loop that ends normally has sent exactly these
    chunks, one request each; and 1500 identifiers give the sizes 1000
    and 500. *)
Theorem batch_loop_partitions (object_ids : list pyval) :
  let chunks := batches object_ids in
  batch_size = 1000 /\
  length chunks = (length object_ids + 999) / 1000 /\
  concat chunks = object_ids /\
  (forall k, k < length chunks ->
     exists c, nth_error chunks k = Some c /\
       c = firstn 1000 (skipn (k * 1000) object_ids) /\
       1 <= length c <= 1000 /\
       (S k < length chunks -> length c = 1000)) /\
  (forall srv gdfs res log log',
     fetch_loop srv (PyList object_ids)
       (range 0 (length object_ids) batch_size) gdfs log = (log', inr res) ->
     log' = log ++ map (fun c => BatchQuery (PyList c)) chunks) /\
  (length object_ids = 1500 -> map (@length pyval) chunks = [1000; 500]).
Proof.
  cbv zeta. split; [reflexivity |]. split; [| split; [| split; [| split]]].
  - exact (batches_of_length batch_size batch_size_pos object_ids).
  - exact (batches_of_concat batch_size batch_size_pos object_ids).
  - intros k Hk.
    destruct (batches_of_sizes batch_size batch_size_pos object_ids k Hk)
      as (c & Hc & Hsz & Hfull & _).
    destruct (batches_of_nth batch_size batch_size_pos object_ids k Hk)
      as [Hnth _].
    exists c. split; [exact Hc |]. split; [| split; [exact Hsz | exact Hfull]].
    unfold batches in Hc. rewrite Hnth in Hc. inversion Hc. reflexivity.
  - intros srv gdfs res log log' Hrun.
    apply fetch_loop_requests in Hrun. destruct Hrun as [-> _].
    unfold batches, batches_of. rewrite map_map. reflexivity.
  - apply batches_1500.
Qed.

End BatchingClaims.

Lemma batch_loop_partitions_witness :
  (length Samples.ids1500 = 1500 /\
   map (@length pyval) (batches Samples.ids1500) = [1000; 500]) /\
  (exists c, nth_error (batches Samples.ids1500) 1 = Some c /\
             c = firstn 1000 (skipn (1 * 1000) Samples.ids1500) /\
             1 <= length c <= 1000 /\
             (2 < length (batches Samples.ids1500) -> length c = 1000)) /\
  fst (fetch_loop (Samples.steady_service Samples.ids1500)
         (PyList Samples.ids1500) (range 0 1500 batch_size) [] [IdsQuery])
  = [IdsQuery] ++ map (fun c => BatchQuery (PyList c))
                      (batches Samples.ids1500).
Proof.
  pose proof (batch_loop_partitions Samples.ids1500) as H.
  cbv zeta in H.
  destruct H as (_ & _ & _ & Hnth & Hloop & H1500).
  split; [split; [vm_compute; reflexivity |] | split].
  - apply H1500. vm_compute. reflexivity.
  - apply Hnth. vm_compute. lia.
  - apply (Hloop (Samples.steady_service Samples.ids1500) []
                 [[Samples.juramento_1]; [Samples.juramento_1]]).
    vm_compute. reflexivity.
Defined.

(** ** The id-list query *)

Section IdListFacts.

(** A transport failure on the id-list query ends the run with that
    exception, after the one request. *)
Lemma ids_transport_failure_aborts (float_repr : float -> string)
  (srv : service) (e : exn) :
  srv [] IdsQuery = inl e ->
  run float_repr srv = ([IdsQuery], inl e).
Proof.
  intros H. unfold run, main, FetchAllIds, bind, requests_get.
  rewrite H. reflexivity.
Qed.

(** Whenever the id-list query raises, the run ends there, with the one
    request sent and no batch request. *)
Lemma ids_failure_aborts (float_repr : float -> string) (srv : service)
  (e : exn) (log : list request) :
  FetchAllIds srv [] = (log, inl e) ->
  run float_repr srv = ([IdsQuery], inl e).
Proof.
  intros H. unfold run, main, bind. rewrite H.
  assert (Hlog : fst (FetchAllIds srv []) = [IdsQuery]).
  { unfold FetchAllIds, bind.
    pose proof (requests_get_log srv IdsQuery []) as Hget.
    destruct (requests_get srv IdsQuery []) as [log1 [e1 | r]];
      simpl in Hget; subst log1; [reflexivity |].
    unfold response_json. destruct (json_body r) as [v |]; [| reflexivity].
    unfold ret at 1. unfold getitem.
    destruct v; try reflexivity.
    destruct (dict_get kvs "objectIds"); reflexivity. }
  rewrite H in Hlog. simpl in Hlog. subst log. reflexivity.
Qed.

(** The id-list query never reads the status of the answer: whatever the
    status, a body that decodes to an object with the key is accepted. *)
Lemma FetchAllIds_any_status (srv : service) (status : Z)
  (kvs : list (string * pyval)) (ids : pyval) :
  srv [] IdsQuery = inr (mkResponse status (Some (PyDict kvs)) None) ->
  dict_get kvs "objectIds" = Some ids ->
  FetchAllIds srv [] = ([IdsQuery], inr ids).
Proof.
  intros Hsrv Hget.
  unfold FetchAllIds, bind, requests_get. rewrite Hsrv.
  unfold response_json. simpl. unfold ret. simpl. rewrite Hget. reflexivity.
Qed.

(** The batch query does read it: an answer with status 500 raises. *)
Lemma FetchObjectsBatch_checks_status (srv : service) (ids : pyval)
  (log : list request) (r : response) :
  srv log (BatchQuery ids) = inr r ->
  (400 <= status_code r < 600)%Z ->
  FetchObjectsBatch srv ids log
  = (log ++ [BatchQuery ids], inl (HTTPError (status_code r))).
Proof.
  intros Hsrv Hst.
  unfold FetchObjectsBatch, bind, requests_get. rewrite Hsrv.
  unfold raise_for_status.
  replace ((400 <=? status_code r)%Z && (status_code r <? 600)%Z) with true.
  - reflexivity.
  - symmetry. apply andb_true_iff. split; [apply Z.leb_le | apply Z.ltb_lt]; lia.
Qed.

(** C3, at the failing input.  The id-list answer has status 500 and the
    body [{"objectIds": [1, 2, 3]}]: [FetchAllIds] returns the three
    identifiers, and the run goes on to send a batch request and ends
    normally.  The same status on the batch answer raises [HTTPError]. *)
Theorem FetchAllIds_accepts_error_status :
  FetchAllIds Samples.failing_ids_service []
  = ([IdsQuery], inr (PyList [PyInt 1; PyInt 2; PyInt 3])) /\
  fst (run Samples.sample_repr Samples.failing_ids_service)
  = [IdsQuery; BatchQuery (PyList [PyInt 1; PyInt 2; PyInt 3])] /\
  (exists t, snd (run Samples.sample_repr Samples.failing_ids_service) = inr t) /\
  run Samples.sample_repr Samples.failing_batch_service
  = ([IdsQuery; BatchQuery (PyList [PyInt 1; PyInt 2; PyInt 3])],
     inl (HTTPError 500)).
Proof.
  split; [reflexivity |]. split; [vm_compute; reflexivity |].
  split; [| vm_compute; reflexivity].
  eexists. vm_compute. reflexivity.
Qed.

End IdListFacts.

(** ** Deduplication *)

Section DedupFacts.

Lemma text_same_refl (a : option string) : text_same a a = true.
Proof. destruct a; simpl; [apply String.eqb_refl | reflexivity]. Qed.

Lemma text_same_eq (a b : option string) : text_same a b = true -> a = b.
Proof.
  destruct a, b; simpl; intros H; try discriminate H; [| reflexivity].
  apply String.eqb_eq in H. subst. reflexivity.
Qed.

Lemma float_same_refl (a : float) : float_same a a = true.
Proof.
  unfold float_same, PrimFloat.is_nan.
  destruct (PrimFloat.eqb a a); reflexivity.
Qed.

(** Numerical equality holds between two zeros, and otherwise only
    between identical numbers. *)
Lemma SFeqb_true (x y : spec_float) :
  SFeqb x y = true ->
  (sf_zero x = true /\ sf_zero y = true) \/ (x = y /\ SFeqb x x = true).
Proof.
  unfold SFeqb.
  destruct x as [sx | sx | | sx mx ex], y as [sy | sy | | sy my ey];
    cbn [SFcompare sf_zero];
    try (left; split; reflexivity);
    try (intros H; discriminate H);
    try (destruct sx; intros H; discriminate H);
    try (destruct sy; intros H; discriminate H).
  - destruct sx, sy; intros H; try discriminate H; right; split; reflexivity.
  - destruct sx, sy; try (intros H; discriminate H);
      destruct (Z.compare_spec ex ey) as [E | E | E];
      try (intros H; discriminate H); subst ey;
      change (PosDef.Pos.compare_cont Eq mx my) with (Pos.compare mx my);
      destruct (Pos.compare_spec mx my) as [Em | Em | Em];
      try (intros H; discriminate H); subst my; intros _; right;
      (split; [reflexivity |]);
      rewrite Z.compare_refl;
      change (PosDef.Pos.compare_cont Eq mx mx) with (Pos.compare mx mx);
      rewrite Pos.compare_refl; reflexivity.
Qed.

Lemma SFeqb_zero (x y : spec_float) :
  sf_zero x = true -> sf_zero y = true -> SFeqb x y = true.
Proof. destruct x, y; intros Hx Hy; try discriminate; reflexivity. Qed.

Lemma SFeqb_trans (x y z : spec_float) :
  SFeqb x y = true -> SFeqb y z = true -> SFeqb x z = true.
Proof.
  intros Hxy Hyz.
  destruct (SFeqb_true x y Hxy) as [[Zx Zy] | [-> _]]; [| exact Hyz].
  destruct (SFeqb_true y z Hyz) as [[_ Zz] | [<- _]].
  - apply SFeqb_zero; assumption.
  - exact Hxy.
Qed.

Lemma SFeqb_self (x y : spec_float) :
  SFeqb x y = true -> SFeqb x x = true /\ SFeqb y y = true.
Proof.
  intros H. destruct (SFeqb_true x y H) as [[Zx Zy] | [<- Hx]].
  - split; apply SFeqb_zero; assumption.
  - split; exact Hx.
Qed.

Lemma float_same_trans (a b c : float) :
  float_same a b = true -> float_same b c = true -> float_same a c = true.
Proof.
  unfold float_same, PrimFloat.is_nan. rewrite !FloatAxioms.eqb_spec.
  intros Hab Hbc.
  apply orb_true_iff in Hab. apply orb_true_iff in Hbc.
  apply orb_true_iff.
  destruct Hab as [Hab | Hab], Hbc as [Hbc | Hbc].
  - left. exact (SFeqb_trans _ _ _ Hab Hbc).
  - apply andb_true_iff in Hbc. destruct Hbc as [Hb _].
    destruct (SFeqb_self _ _ Hab) as [_ Hbb]. rewrite Hbb in Hb.
    discriminate Hb.
  - apply andb_true_iff in Hab. destruct Hab as [_ Hb].
    destruct (SFeqb_self _ _ Hbc) as [Hbb _]. rewrite Hbb in Hb.
    discriminate Hb.
  - apply andb_true_iff in Hab. apply andb_true_iff in Hbc.
    right. apply andb_true_iff. split; [apply Hab | apply Hbc].
Qed.

Lemma text_same_trans (a b c : option string) :
  text_same a b = true -> text_same b c = true -> text_same a c = true.
Proof.
  intros Hab Hbc. apply text_same_eq in Hab. subst b. exact Hbc.
Qed.

Lemma same_key_trans (a b c : row) :
  same_key a b = true -> same_key b c = true -> same_key a c = true.
Proof.
  unfold same_key. intros Hab Hbc.
  repeat (apply andb_true_iff in Hab; destruct Hab as [Hab ?]).
  repeat (apply andb_true_iff in Hbc; destruct Hbc as [Hbc ?]).
  repeat (apply andb_true_iff; split);
    eauto using text_same_trans, float_same_trans.
Qed.

Lemma same_key_refl (r : row) : same_key r r = true.
Proof.
  unfold same_key. rewrite !text_same_refl, !float_same_refl. reflexivity.
Qed.

(** Rows that agree on the four columns, whatever else they hold. *)
Lemma same_key_of_equal_columns (a b : row) :
  NOME_EOL (props a) = NOME_EOL (props b) ->
  DEN_AEG (props a) = DEN_AEG (props b) ->
  latitude a = latitude b ->
  longitude a = longitude b ->
  same_key a b = true.
Proof.
  intros H1 H2 H3 H4. unfold same_key. rewrite H1, H2, H3, H4.
  rewrite !text_same_refl, !float_same_refl. reflexivity.
Qed.

(** Rows with the same key have the same name. *)
Lemma same_key_name (a b : row) :
  same_key a b = true -> NOME_EOL (props a) = NOME_EOL (props b).
Proof.
  unfold same_key. intros H.
  apply andb_true_iff in H. destruct H as [H _].
  apply andb_true_iff in H. destruct H as [H _].
  apply andb_true_iff in H. destruct H as [H _].
  apply text_same_eq. exact H.
Qed.

(** What the scan does to a table with one more row at its end. *)
Lemma drop_duplicates_from_snoc (seen : list row) (t : table)
  (i : nat) (r : row) :
  drop_duplicates_from seen (t ++ [(i, r)]) =
  if existsb (same_key r) (seen ++ map snd (drop_duplicates_from seen t))
  then drop_duplicates_from seen t
  else drop_duplicates_from seen t ++ [(i, r)].
Proof.
  revert seen. induction t as [| [j q] t IH]; intros seen; simpl.
  - rewrite app_nil_r. destruct (existsb (same_key r) seen); reflexivity.
  - destruct (existsb (same_key q) seen) eqn:Eq.
    + apply IH.
    + rewrite IH. simpl. rewrite <- app_assoc. simpl.
      destruct (existsb (same_key r)
                  (seen ++ q :: map snd (drop_duplicates_from (seen ++ [q]) t)));
        reflexivity.
Qed.

(** The rows kept are exactly the rows seen. *)
Lemma drop_duplicates_from_In (seen : list row) (t : table)
  (i : nat) (r : row) :
  In (i, r) (drop_duplicates_from seen t) -> In (i, r) t.
Proof.
  revert seen. induction t as [| [j q] t IH]; intros seen; simpl; [tauto |].
  destruct (existsb (same_key q) seen).
  - intros H. right. exact (IH _ H).
  - intros [H | H]; [left; exact H | right; exact (IH _ H)].
Qed.

(** Every row of the table has a kept row, or an already seen one, with
    its key. *)
Lemma drop_duplicates_from_covers (seen : list row) (t : table)
  (i : nat) (r : row) :
  In (i, r) t ->
  existsb (same_key r) (seen ++ map snd (drop_duplicates_from seen t)) = true.
Proof.
  revert seen. induction t as [| [j q] t IH]; intros seen; simpl; [tauto |].
  intros [H | H].
  - inversion H; subst j q. clear H.
    destruct (existsb (same_key r) seen) eqn:E.
    + rewrite existsb_app, E. reflexivity.
    + simpl. rewrite existsb_app. simpl. rewrite same_key_refl.
      apply orb_true_r.
  - destruct (existsb (same_key q) seen) eqn:E.
    + apply IH. exact H.
    + simpl. specialize (IH (seen ++ [q]) H).
      rewrite <- app_assoc in IH. exact IH.
Qed.

(** A key found among the rows met so far is found among the rows kept
    so far, and conversely. *)
Lemma seen_among_kept (t : table) (r : row) :
  existsb (same_key r) (map snd (drop_duplicates t))
  = existsb (same_key r) (map snd t).
Proof.
  apply eq_true_iff_eq. split; intros H; apply existsb_exists in H;
    destruct H as (q & Hq & Hkey); apply existsb_exists.
  - exists q. split; [| exact Hkey].
    apply in_map_iff in Hq. destruct Hq as ([j q'] & E & Hin).
    simpl in E. subst q'. apply in_map_iff. exists (j, q).
    split; [reflexivity |]. exact (drop_duplicates_from_In [] t j q Hin).
  - apply in_map_iff in Hq. destruct Hq as ([j q'] & E & Hin).
    simpl in E. subst q'.
    pose proof (drop_duplicates_from_covers [] t j q Hin) as Hcov.
    simpl in Hcov. apply existsb_exists in Hcov.
    destruct Hcov as (k & Hk & Hqk).
    exists k. split; [exact Hk |]. exact (same_key_trans r q k Hkey Hqk).
Qed.

End DedupFacts.

Section DedupClaims.

(** C5.  Deduplication visits the rows in table order: a row is removed
    exactly when its (NOME_EOL, DEN_AEG, latitude, longitude) tuple
    equals that of a row kept before it (which is the case exactly when
    it equals that of any row before it), and is kept, in its place and
    with its label, otherwise; so of two rows that agree on the tuple
    only the first survives, whatever their other fields. *)
Theorem drop_duplicates_keeps_first :
  drop_duplicates [] = [] /\
  (forall (t : table) (i : nat) (r : row),
     drop_duplicates (t ++ [(i, r)]) =
     if existsb (same_key r) (map snd (drop_duplicates t))
     then drop_duplicates t
     else drop_duplicates t ++ [(i, r)]) /\
  (forall (t : table) (i : nat) (r : row),
     drop_duplicates (t ++ [(i, r)]) =
     if existsb (same_key r) (map snd t)
     then drop_duplicates t
     else drop_duplicates t ++ [(i, r)]) /\
  (forall (i j : nat) (r1 r2 : row),
     NOME_EOL (props r1) = NOME_EOL (props r2) ->
     DEN_AEG (props r1) = DEN_AEG (props r2) ->
     latitude r1 = latitude r2 ->
     longitude r1 = longitude r2 ->
     drop_duplicates [(i, r1); (j, r2)] = [(i, r1)]).
Proof.
  assert (Hsnoc : forall t i r,
            drop_duplicates (t ++ [(i, r)]) =
            if existsb (same_key r) (map snd (drop_duplicates t))
            then drop_duplicates t
            else drop_duplicates t ++ [(i, r)]).
  { intros t i r. unfold drop_duplicates.
    rewrite drop_duplicates_from_snoc. reflexivity. }
  split; [reflexivity |]. split; [exact Hsnoc |]. split.
  - intros t i r. rewrite Hsnoc, seen_among_kept. reflexivity.
  - intros i j r1 r2 H1 H2 H3 H4. unfold drop_duplicates. simpl.
    rewrite (same_key_of_equal_columns r2 r1) by (symmetry; assumption).
    reflexivity.
Qed.

Lemma drop_duplicates_keeps_first_witness :
  drop_duplicates [(0, Samples.as_row Samples.serra_do_1);
                   (1, Samples.as_row Samples.serra_do_1_again)]
  = [(0, Samples.as_row Samples.serra_do_1)] /\
  Samples.serra_do_1 <> Samples.serra_do_1_again.
Proof.
  split.
  - apply (proj2 (proj2 (proj2 drop_duplicates_keeps_first))); reflexivity.
  - intros H. apply (f_equal POT_MW) in H. simpl in H.
    apply (f_equal (fun f => PrimFloat.eqb f 4200)) in H.
    vm_compute in H. discriminate H.
Defined.

End DedupClaims.

(** ** Operation status *)

Section OperacaoClaims.

Variable float_repr : float -> string.

(** The only integer whose decimal writing is "1" is 1. *)
Lemma py_str_int_one (z : Z) : py_str float_repr (CInt z) = "1" -> z = 1%Z.
Proof.
  simpl. intros H.
  pose proof (NilEmpty.isi (Z.to_int z)) as Hisi. rewrite H in Hisi.
  change (NilEmpty.int_of_string "1")
    with (Some (Decimal.Pos (Decimal.D1 Decimal.Nil))) in Hisi.
  injection Hisi as Hz.
  rewrite <- (DecimalZ.of_to z), <- Hz. reflexivity.
Qed.

(** C7 (amended).  The normalization sends the text "1" to "Sim", a
    missing value (None or NaN) to "Sem informação", and returns
    unchanged every other value whose string form is not "1": every
    other text, "0" among them, and every integer other than 1. *)
Theorem normalize_operacao_cases (x : cell) :
  normalize_operacao float_repr (CStr "1") = CStr "Sim" /\
  (pd_isna x = true ->
   normalize_operacao float_repr x = CStr "Sem informação") /\
  (pd_isna x = false -> py_str float_repr x <> "1" ->
   normalize_operacao float_repr x = x) /\
  (forall s : string, s <> "1" ->
   normalize_operacao float_repr (CStr s) = CStr s) /\
  (forall z : Z, z <> 1%Z ->
   normalize_operacao float_repr (CInt z) = CInt z) /\
  normalize_operacao float_repr (CStr "0") = CStr "0".
Proof.
  assert (Hkeep : forall y, pd_isna y = false -> py_str float_repr y <> "1" ->
                            normalize_operacao float_repr y = y).
  { intros y Hna Hstr. unfold normalize_operacao. rewrite Hna.
    destruct (String.eqb_spec (py_str float_repr y) "1") as [E | _];
      [contradiction | reflexivity]. }
  split; [reflexivity |]. split; [| split; [exact (Hkeep x) | split; [| split]]].
  - intros Hna. unfold normalize_operacao. rewrite Hna. reflexivity.
  - intros s Hs. apply Hkeep; [reflexivity | exact Hs].
  - intros z Hz. apply Hkeep; [reflexivity |].
    intros E. apply Hz. exact (py_str_int_one z E).
  - reflexivity.
Qed.

(** C9.  The test is on [str(x)]: the integer 1, whose string form is
    "1", is sent to "Sim" like the text "1", and so is every value that
    is not missing and has that string form; the float 1.0, whose string
    form is "1.0", is returned unchanged. *)
Theorem normalize_operacao_stringifies :
  normalize_operacao float_repr (CInt 1) = CStr "Sim" /\
  normalize_operacao float_repr (CStr "1") = CStr "Sim" /\
  (forall x : cell, pd_isna x = false -> py_str float_repr x = "1" ->
   normalize_operacao float_repr x = CStr "Sim") /\
  (float_repr 1%float = "1.0" ->
   normalize_operacao float_repr (CFloat 1%float) = CFloat 1%float).
Proof.
  split; [reflexivity |]. split; [reflexivity |]. split.
  - intros x Hna Hstr. unfold normalize_operacao. rewrite Hna, Hstr.
    reflexivity.
  - intros Hrepr. unfold normalize_operacao.
    change (pd_isna (CFloat 1%float)) with false. cbn iota.
    simpl py_str. rewrite Hrepr. reflexivity.
Qed.

End OperacaoClaims.

Lemma normalize_operacao_cases_witness :
  normalize_operacao Samples.sample_repr CNone = CStr "Sem informação" /\
  normalize_operacao Samples.sample_repr (CStr "Não") = CStr "Não" /\
  normalize_operacao Samples.sample_repr (CInt 0) = CInt 0.
Proof.
  split; [| split].
  - apply (proj1 (proj2 (normalize_operacao_cases Samples.sample_repr CNone))).
    reflexivity.
  - apply (proj1 (proj2 (proj2
             (normalize_operacao_cases Samples.sample_repr (CStr "Não"))))).
    + reflexivity.
    + intros H. discriminate H.
  - apply (proj1 (proj2 (proj2 (proj2 (proj2
             (normalize_operacao_cases Samples.sample_repr CNone)))))).
    intros H. discriminate H.
Defined.

(** C7, as stated, fails: the integer 1 is neither the text "1" nor a
    missing value, and it is not returned unchanged. *)
Lemma integer_one_is_rewritten :
  CInt 1 <> CStr "1" /\ pd_isna (CInt 1) = false /\
  normalize_operacao Samples.sample_repr (CInt 1) <> CInt 1.
Proof.
  split; [intros H; discriminate H |]. split; [reflexivity |].
  intros H. discriminate H.
Qed.

Lemma normalize_operacao_stringifies_witness :
  Samples.sample_repr 1%float = "1.0" /\
  normalize_operacao Samples.sample_repr (CFloat 1%float) = CFloat 1%float /\
  normalize_operacao Samples.sample_repr (CInt 1) = CStr "Sim".
Proof.
  split; [reflexivity |]. split.
  - apply (proj2 (proj2 (proj2
             (normalize_operacao_stringifies Samples.sample_repr)))).
    reflexivity.
  - apply (proj1 (proj2 (proj2
             (normalize_operacao_stringifies Samples.sample_repr))));
      reflexivity.
Defined.

(** ** The rules commute *)

Section CommutationFacts.

Lemma override_UF_on_rows (name uf : string) (t : table) :
  override_UF name uf t = on_rows (override_row name uf) t.
Proof.
  unfold override_UF, on_rows, override_row. apply map_ext.
  intros [i r]. simpl. destruct (name_is name r); reflexivity.
Qed.

Lemma on_rows_commute (f g : row -> row) (t : table) :
  (forall r, f (g r) = g (f r)) ->
  on_rows f (on_rows g t) = on_rows g (on_rows f t).
Proof.
  intros H. unfold on_rows. rewrite !map_map. apply map_ext.
  intros [i r]. simpl. rewrite H. reflexivity.
Qed.

(** Dropping by name commutes with a rewriting that keeps names. *)
Lemma drop_named_on_rows (name : string) (f : row -> row) (t : table) :
  (forall r, NOME_EOL (props (f r)) = NOME_EOL (props r)) ->
  drop_named name (on_rows f t) = on_rows f (drop_named name t).
Proof.
  intros H. unfold drop_named, on_rows.
  induction t as [| [i r] t IH]; simpl; [reflexivity |].
  unfold name_is at 1. rewrite H. fold (name_is name r).
  destruct (name_is name r); simpl; rewrite IH; reflexivity.
Qed.

(** Deduplication commutes with a rewriting that keeps the key columns. *)
Lemma drop_duplicates_from_on_rows (f : row -> row) (seen : list row)
  (t : table) :
  (forall a b, same_key (f a) (f b) = same_key a b) ->
  drop_duplicates_from (map f seen) (on_rows f t)
  = on_rows f (drop_duplicates_from seen t).
Proof.
  intros H. revert seen.
  induction t as [| [i r] t IH]; intros seen; simpl; [reflexivity |].
  assert (E : existsb (same_key (f r)) (map f seen)
              = existsb (same_key r) seen).
  { clear IH. induction seen as [| s seen IHs]; simpl; [reflexivity |].
    rewrite H, IHs. reflexivity. }
  rewrite E. destruct (existsb (same_key r) seen).
  - apply IH.
  - simpl. f_equal. rewrite <- (IH (seen ++ [r])), map_app. reflexivity.
Qed.

Lemma drop_duplicates_on_rows (f : row -> row) (t : table) :
  (forall a b, same_key (f a) (f b) = same_key a b) ->
  drop_duplicates (on_rows f t) = on_rows f (drop_duplicates t).
Proof.
  intros H. exact (drop_duplicates_from_on_rows f [] t H).
Qed.

(** Rows with the same key are dropped by name together. *)
Lemma same_key_name_is (name : string) (a b : row) :
  same_key a b = true -> name_is name a = name_is name b.
Proof.
  intros H. unfold name_is. rewrite (same_key_name a b H). reflexivity.
Qed.

Lemma existsb_same_key_filter (name : string) (r : row) (seen : list row) :
  name_is name r = false ->
  existsb (same_key r) (filter (fun s => negb (name_is name s)) seen)
  = existsb (same_key r) seen.
Proof.
  intros Hr. induction seen as [| s seen IH]; simpl; [reflexivity |].
  destruct (name_is name s) eqn:Es; simpl.
  - destruct (same_key r s) eqn:Ek; simpl; [| exact IH].
    rewrite (same_key_name_is name r s Ek), Es in Hr. discriminate Hr.
  - rewrite IH. reflexivity.
Qed.

(** Deduplication commutes with dropping by name. *)
Lemma drop_duplicates_from_drop_named (name : string) (seen : list row)
  (t : table) :
  drop_duplicates_from (filter (fun s => negb (name_is name s)) seen)
                       (drop_named name t)
  = drop_named name (drop_duplicates_from seen t).
Proof.
  revert seen. induction t as [| [i r] t IH]; intros seen; [reflexivity |].
  unfold drop_named at 1. cbn [filter snd]. fold (drop_named name t).
  destruct (name_is name r) eqn:Er; cbn [negb drop_duplicates_from].
  - destruct (existsb (same_key r) seen).
    + apply IH.
    + unfold drop_named at 2. cbn [filter snd]. rewrite Er. cbn [negb].
      fold (drop_named name (drop_duplicates_from (seen ++ [r]) t)).
      rewrite <- IH, filter_app. simpl. rewrite Er. simpl.
      rewrite app_nil_r. reflexivity.
  - rewrite (existsb_same_key_filter name r seen Er).
    destruct (existsb (same_key r) seen).
    + apply IH.
    + unfold drop_named at 2. cbn [filter snd]. rewrite Er. cbn [negb].
      fold (drop_named name (drop_duplicates_from (seen ++ [r]) t)).
      rewrite <- IH, filter_app. simpl. rewrite Er. reflexivity.
Qed.

Lemma drop_duplicates_drop_named (name : string) (t : table) :
  drop_duplicates (drop_named name t) = drop_named name (drop_duplicates t).
Proof. exact (drop_duplicates_from_drop_named name [] t). Qed.

End CommutationFacts.

Section CommutationClaims.

Variable float_repr : float -> string.

(** The rewriting rules leave the key columns alone. *)
Lemma override_row_key (name uf : string) (a b : row) :
  same_key (override_row name uf a) (override_row name uf b) = same_key a b.
Proof.
  unfold override_row.
  destruct (name_is name a), (name_is name b); reflexivity.
Qed.

Lemma override_row_name (name uf : string) (r : row) :
  NOME_EOL (props (override_row name uf r)) = NOME_EOL (props r).
Proof. unfold override_row. destruct (name_is name r); reflexivity. Qed.

Lemma override_row_name_is (name uf other_name : string) (r : row) :
  name_is other_name (override_row name uf r) = name_is other_name r.
Proof. unfold name_is. rewrite override_row_name. reflexivity. Qed.

(** Two overrides under different names never touch the same row. *)
Lemma override_row_commute (n1 u1 n2 u2 : string) (r : row) :
  n1 <> n2 ->
  override_row n1 u1 (override_row n2 u2 r)
  = override_row n2 u2 (override_row n1 u1 r).
Proof.
  intros Hne.
  unfold override_row at 1 3. rewrite !override_row_name_is.
  unfold override_row.
  destruct (name_is n1 r) eqn:E1, (name_is n2 r) eqn:E2; try reflexivity.
  exfalso. apply Hne. unfold name_is in E1, E2.
  destruct (NOME_EOL (props r)) as [n |]; [| discriminate E1].
  apply String.eqb_eq in E1, E2. congruence.
Qed.

Lemma override_power_commute (name uf : string) (r : row) :
  override_row name uf (power_row r) = power_row (override_row name uf r).
Proof.
  unfold override_row, power_row.
  change (name_is name (set_POT_MW (CorrectNominalPower (POT_MW (props r))) r))
    with (name_is name r).
  destruct (name_is name r); reflexivity.
Qed.

Lemma override_operacao_commute (name uf : string) (r : row) :
  override_row name uf (operacao_row float_repr r)
  = operacao_row float_repr (override_row name uf r).
Proof.
  unfold override_row, operacao_row.
  change (name_is name
            (set_OPERACAO (normalize_operacao float_repr (OPERACAO (props r))) r))
    with (name_is name r).
  destruct (name_is name r); reflexivity.
Qed.

Lemma power_operacao_commute (r : row) :
  power_row (operacao_row float_repr r)
  = operacao_row float_repr (power_row r).
Proof. reflexivity. Qed.

(** C8.  Any two of the six correction rules commute: applied to any
    table in either order they give the same table. *)
Theorem rules_commute (r1 r2 : table -> table) (t : table) :
  In r1 (rules float_repr) -> In r2 (rules float_repr) ->
  r1 (r2 t) = r2 (r1 t).
Proof.
  assert (Hnames : "Asa Branca III" <> "Barra XI") by (intros H; discriminate H).
  assert (X_A : forall u, rule_exclusion (rule_uf_asa_branca u)
                          = rule_uf_asa_branca (rule_exclusion u)).
  { intros u. unfold rule_exclusion, rule_uf_asa_branca.
    rewrite !override_UF_on_rows. apply drop_named_on_rows.
    intros r. apply override_row_name. }
  assert (X_B : forall u, rule_exclusion (rule_uf_barra u)
                          = rule_uf_barra (rule_exclusion u)).
  { intros u. unfold rule_exclusion, rule_uf_barra.
    rewrite !override_UF_on_rows. apply drop_named_on_rows.
    intros r. apply override_row_name. }
  assert (X_P : forall u, rule_exclusion (rule_power u)
                          = rule_power (rule_exclusion u)).
  { intros u. apply drop_named_on_rows. reflexivity. }
  assert (X_O : forall u, rule_exclusion (rule_operacao float_repr u)
                          = rule_operacao float_repr (rule_exclusion u)).
  { intros u. apply drop_named_on_rows. reflexivity. }
  assert (X_D : forall u, rule_exclusion (rule_dedup u)
                          = rule_dedup (rule_exclusion u)).
  { intros u. symmetry. apply drop_duplicates_drop_named. }
  assert (A_B : forall u, rule_uf_asa_branca (rule_uf_barra u)
                          = rule_uf_barra (rule_uf_asa_branca u)).
  { intros u. unfold rule_uf_asa_branca, rule_uf_barra.
    rewrite !override_UF_on_rows. apply on_rows_commute.
    intros r. apply override_row_commute. exact Hnames. }
  assert (A_P : forall u, rule_uf_asa_branca (rule_power u)
                          = rule_power (rule_uf_asa_branca u)).
  { intros u. unfold rule_uf_asa_branca, rule_power.
    rewrite !override_UF_on_rows. apply on_rows_commute.
    intros r. apply override_power_commute. }
  assert (A_O : forall u, rule_uf_asa_branca (rule_operacao float_repr u)
                          = rule_operacao float_repr (rule_uf_asa_branca u)).
  { intros u. unfold rule_uf_asa_branca, rule_operacao.
    rewrite !override_UF_on_rows. apply on_rows_commute.
    intros r. apply override_operacao_commute. }
  assert (A_D : forall u, rule_uf_asa_branca (rule_dedup u)
                          = rule_dedup (rule_uf_asa_branca u)).
  { intros u. unfold rule_uf_asa_branca, rule_dedup.
    rewrite !override_UF_on_rows. symmetry. apply drop_duplicates_on_rows.
    apply override_row_key. }
  assert (B_P : forall u, rule_uf_barra (rule_power u)
                          = rule_power (rule_uf_barra u)).
  { intros u. unfold rule_uf_barra, rule_power.
    rewrite !override_UF_on_rows. apply on_rows_commute.
    intros r. apply override_power_commute. }
  assert (B_O : forall u, rule_uf_barra (rule_operacao float_repr u)
                          = rule_operacao float_repr (rule_uf_barra u)).
  { intros u. unfold rule_uf_barra, rule_operacao.
    rewrite !override_UF_on_rows. apply on_rows_commute.
    intros r. apply override_operacao_commute. }
  assert (B_D : forall u, rule_uf_barra (rule_dedup u)
                          = rule_dedup (rule_uf_barra u)).
  { intros u. unfold rule_uf_barra, rule_dedup.
    rewrite !override_UF_on_rows. symmetry. apply drop_duplicates_on_rows.
    apply override_row_key. }
  assert (P_O : forall u, rule_power (rule_operacao float_repr u)
                          = rule_operacao float_repr (rule_power u)).
  { intros u. apply on_rows_commute. intros r. reflexivity. }
  assert (P_D : forall u, rule_power (rule_dedup u)
                          = rule_dedup (rule_power u)).
  { intros u. symmetry. apply drop_duplicates_on_rows. reflexivity. }
  assert (O_D : forall u, rule_operacao float_repr (rule_dedup u)
                          = rule_dedup (rule_operacao float_repr u)).
  { intros u. symmetry. apply drop_duplicates_on_rows. reflexivity. }
  unfold rules. simpl.
  intros [<- | [<- | [<- | [<- | [<- | [<- | []]]]]]]
         [<- | [<- | [<- | [<- | [<- | [<- | []]]]]]];
    solve [ reflexivity | auto | symmetry; auto ].
Qed.

End CommutationClaims.

Lemma rules_commute_witness :
  rule_dedup (rule_exclusion
    [(0, Samples.as_row Samples.serra_de_1);
     (1, Samples.as_row Samples.serra_do_1);
     (2, Samples.as_row Samples.serra_do_1_again)])
  = rule_exclusion (rule_dedup
    [(0, Samples.as_row Samples.serra_de_1);
     (1, Samples.as_row Samples.serra_do_1);
     (2, Samples.as_row Samples.serra_do_1_again)]).
Proof.
  apply (rules_commute Samples.sample_repr rule_dedup rule_exclusion).
  - simpl. tauto.
  - simpl. tauto.
Defined.

(** ** The corrected table as a whole *)

Section PipelineFacts.

Variable float_repr : float -> string.

Lemma on_rows_compose (f g : row -> row) (t : table) :
  on_rows f (on_rows g t) = on_rows (fun r => f (g r)) t.
Proof. unfold on_rows. rewrite map_map. reflexivity. Qed.

(** The six rules amount to: drop the excluded name, rewrite each row,
    drop the duplicates. *)
Lemma corrections_shape (t : table) :
  corrections float_repr t
  = drop_duplicates
      (on_rows (fix_row float_repr)
         (drop_named "Serra de Gentio do Ouro XXIII" t)).
Proof.
  unfold corrections, rule_dedup, rule_operacao, rule_power, rule_uf_barra,
    rule_uf_asa_branca, rule_exclusion.
  rewrite !override_UF_on_rows, !on_rows_compose. reflexivity.
Qed.

Lemma fix_row_name (r : row) :
  NOME_EOL (props (fix_row float_repr r)) = NOME_EOL (props r).
Proof.
  unfold fix_row, operacao_row, power_row. simpl.
  rewrite !override_row_name. reflexivity.
Qed.

Lemma fix_row_name_is (name : string) (r : row) :
  name_is name (fix_row float_repr r) = name_is name r.
Proof. unfold name_is. rewrite fix_row_name. reflexivity. Qed.

Lemma fix_row_key_left (a b : row) :
  same_key (fix_row float_repr a) b = same_key a b.
Proof.
  unfold fix_row, operacao_row, power_row, override_row.
  destruct (name_is "Asa Branca III" a);
    match goal with
    | |- context [name_is "Barra XI" ?x] => destruct (name_is "Barra XI" x)
    end; reflexivity.
Qed.

Lemma in_on_rows (f : row -> row) (t : table) (i : nat) (r : row) :
  In (i, r) (on_rows f t) -> exists r0, In (i, r0) t /\ r = f r0.
Proof.
  unfold on_rows. intros H. apply in_map_iff in H.
  destruct H as ([j r0] & E & Hin). simpl in E. inversion E; subst.
  exists r0. split; [exact Hin | reflexivity].
Qed.

(** A row of the corrected table is a rewritten row of the input, under
    the same label, and does not bear the excluded name. *)
Lemma in_corrections (t : table) (i : nat) (r : row) :
  In (i, r) (corrections float_repr t) ->
  exists r0, In (i, r0) t /\ r = fix_row float_repr r0 /\
             name_is "Serra de Gentio do Ouro XXIII" r0 = false.
Proof.
  rewrite corrections_shape. intros H.
  apply (drop_duplicates_from_In []) in H.
  apply in_on_rows in H. destruct H as (r0 & Hin & ->).
  unfold drop_named in Hin. apply filter_In in Hin.
  destruct Hin as [Hin Hname]. simpl in Hname.
  exists r0. split; [exact Hin |]. split; [reflexivity |].
  apply negb_true_iff. exact Hname.
Qed.

End PipelineFacts.

Section ExclusionClaims.

Variable float_repr : float -> string.


End ExclusionClaims.



(** ** The row index *)

Section IndexFacts.

Lemma subseq_refl {A : Type} (l : list A) : subseq l l.
Proof. induction l; constructor; assumption. Qed.

Lemma subseq_trans {A : Type} (l1 l2 l3 : list A) :
  subseq l1 l2 -> subseq l2 l3 -> subseq l1 l3.
Proof.
  intros H12 H23. revert l1 H12.
  induction H23 as [| x l2 l3 H23 IH | x l2 l3 H23 IH]; intros l1 H12.
  - exact H12.
  - apply subseq_skip. apply IH. exact H12.
  - inversion H12; subst.
    + apply subseq_skip. apply IH. assumption.
    + apply subseq_keep. apply IH. assumption.
Qed.

Lemma subseq_In {A : Type} (l1 l2 : list A) (x : A) :
  subseq l1 l2 -> In x l1 -> In x l2.
Proof.
  induction 1 as [| y l1 l2 H IH | y l1 l2 H IH]; simpl; intros Hin.
  - exact Hin.
  - right. apply IH. exact Hin.
  - destruct Hin as [-> | Hin]; [left; reflexivity | right; apply IH; exact Hin].
Qed.

Lemma index_filter_subseq {A : Type} (p : nat * A -> bool) (t : frame A) :
  subseq (index (filter p t)) (index t).
Proof.
  induction t as [| x t IH]; simpl; [constructor |].
  destruct (p x); simpl; constructor; exact IH.
Qed.

Lemma index_drop_duplicates_subseq (seen : list row) (t : table) :
  subseq (index (drop_duplicates_from seen t)) (index t).
Proof.
  revert seen. induction t as [| [i r] t IH]; intros seen; simpl;
    [constructor |].
  destruct (existsb (same_key r) seen); simpl; constructor; apply IH.
Qed.

Lemma index_on_rows (f : row -> row) (t : table) :
  index (on_rows f t) = index t.
Proof.
  unfold index, on_rows. rewrite map_map. reflexivity.
Qed.

Lemma index_add_coordinates (t : frame feature) :
  index (add_coordinates t) = index t.
Proof.
  unfold index, add_coordinates. rewrite map_map. reflexivity.
Qed.

Lemma index_reset_index {A : Type} (l : list A) :
  index (reset_index l) = seq 0 (length l).
Proof.
  unfold index, reset_index.
  assert (H : forall a (l' : list A),
            map fst (combine (seq a (length l')) l') = seq a (length l')).
  { intros a l'. revert a. induction l' as [| x l' IH]; intros a; simpl;
      [reflexivity |]. rewrite IH. reflexivity. }
  apply H.
Qed.

(** A fresh index labels each row with its position. *)
Lemma reset_index_nth {A : Type} (l : list A) (i : nat) (x : A) :
  In (i, x) (reset_index l) -> nth_error l i = Some x.
Proof.
  unfold reset_index.
  assert (H : forall a (l' : list A),
            In (i, x) (combine (seq a (length l')) l') ->
            a <= i /\ nth_error l' (i - a) = Some x).
  { intros a l'. revert a. induction l' as [| y l' IH]; intros a; simpl;
      [tauto |].
    intros [E | Hin].
    - inversion E; subst. rewrite Nat.sub_diag. split; [lia | reflexivity].
    - destruct (IH _ Hin) as [Hle Hnth]. split; [lia |].
      replace (i - a) with (S (i - S a)) by lia. exact Hnth. }
  intros Hin. destruct (H 0 l Hin) as [_ Hnth].
  rewrite Nat.sub_0_r in Hnth. exact Hnth.
Qed.

(** A selection from [a, a+1, ..., a+n-1] is an initial run of it exactly
    when no kept label comes after a label left out. *)
Lemma subseq_seq_contiguous (n a : nat) (l : list nat) :
  subseq l (seq a n) ->
  (l = seq a (length l) <->
   (forall i j, a <= i -> i < j -> In j l -> In i l)).
Proof.
  intros Hsub. split.
  - intros E i j Hai Hij Hj. rewrite E in Hj |- *.
    apply in_seq in Hj. apply in_seq. lia.
  - revert a l Hsub. induction n as [| n IH]; intros a l Hsub Hclosed.
    + inversion Hsub. reflexivity.
    + simpl in Hsub. inversion Hsub as [| x l1 l2 Hsub' | x l1 l2 Hsub']; subst.
      * destruct l as [| j l']; [reflexivity |].
        assert (Hj : In j (seq (S a) n))
          by (apply (subseq_In _ _ _ Hsub'); left; reflexivity).
        apply in_seq in Hj.
        assert (Ha : In a (j :: l'))
          by (apply (Hclosed a j); [lia | lia | left; reflexivity]).
        apply (subseq_In _ _ _ Hsub') in Ha. apply in_seq in Ha. lia.
      * simpl. f_equal. apply IH; [exact Hsub' |].
        intros i j Hai Hij Hj.
        destruct (Hclosed i j) as [E | Hin]; [lia | exact Hij | right; exact Hj | | exact Hin].
        lia.
Qed.

End IndexFacts.

Section IndexClaims.
Local Open Scope script_scope.

Variable float_repr : float -> string.

(** The table of a run that ends normally is the corrected, freshly
    indexed stack of the batches. *)
Lemma run_output (srv : service) (log : list request) (t : table) :
  run float_repr srv = (log, inr t) ->
  exists fs : list feature,
    t = corrections float_repr (add_coordinates (reset_index fs)).
Proof.
  unfold run, main, bind.
  destruct (FetchAllIds srv []) as [log1 [e | object_ids]];
    [intros H; discriminate H |].
  destruct (py_len object_ids log1) as [log2 [e | n]];
    [intros H; discriminate H |].
  destruct (fetch_loop srv object_ids (range 0 n batch_size) [] log2)
    as [log3 [e | gdfs]]; [intros H; discriminate H |].
  unfold pd_concat. destruct gdfs as [| g gdfs].
  - unfold raise. intros H. discriminate H.
  - unfold ret. intros H. inversion H; subst.
    exists (concat (g :: gdfs)). reflexivity.
Qed.

Lemma py_slice_log (v : pyval) (i j : nat) (log : list request) :
  fst (py_slice v i j log) = log.
Proof. destruct v; reflexivity. Qed.

(** A batch fetch that returns has sent its request and returns the
    decoded body of the answer. *)
Lemma FetchObjectsBatch_inr (srv : service) (b : pyval)
  (log log' : list request) (g : list feature) :
  FetchObjectsBatch srv b log = (log', inr g) ->
  log' = log ++ [BatchQuery b] /\
  exists r, srv log (BatchQuery b) = inr r /\ geo_body r = Some g.
Proof.
  unfold FetchObjectsBatch, bind, requests_get.
  destruct (srv log (BatchQuery b)) as [e | r]; [intros H; discriminate H |].
  unfold raise_for_status.
  destruct ((400 <=? status_code r) && (status_code r <? 600))%Z;
    [intros H; discriminate H |].
  unfold ret at 1. unfold read_file.
  destruct (geo_body r) as [fs |] eqn:Eg; [| intros H; discriminate H].
  unfold ret. intros H. inversion H; subst.
  split; [reflexivity |]. exists r. split; [reflexivity | exact Eg].
Qed.

(** The frames a loop returns are those its requests were answered
    with. *)
Lemma fetch_loop_frames (srv : service) (v : pyval) (starts : list nat)
  (gdfs res : list (list feature)) (log log' : list request) :
  fetch_loop srv v starts gdfs log = (log', inr res) ->
  exists reqs, log' = log ++ reqs /\ res = gdfs ++ frames_after srv log reqs.
Proof.
  revert gdfs log. induction starts as [| i starts IH]; intros gdfs log.
  - simpl. unfold ret. intros H. inversion H; subst.
    exists []. rewrite !app_nil_r. split; reflexivity.
  - cbn [fetch_loop]. unfold bind at 1.
    pose proof (py_slice_log v i (i + batch_size) log) as Hs.
    destruct (py_slice v i (i + batch_size) log) as [log1 [e | b]];
      simpl in Hs; subst log1; [intros H; discriminate H |].
    unfold bind at 1.
    destruct (FetchObjectsBatch srv b log) as [log2 [e | g]] eqn:Ef;
      [intros H; discriminate H |].
    apply FetchObjectsBatch_inr in Ef. destruct Ef as (-> & r & Hr & Hg).
    intros H. apply IH in H. destruct H as (reqs & -> & ->).
    exists (BatchQuery b :: reqs). rewrite <- !app_assoc.
    split; [reflexivity |]. cbn [frames_after]. rewrite Hr, Hg. reflexivity.
Qed.

Lemma FetchAllIds_log (srv : service) (log : list request) :
  fst (FetchAllIds srv log) = log ++ [IdsQuery].
Proof.
  unfold FetchAllIds, bind.
  pose proof (requests_get_log srv IdsQuery log) as Hget.
  destruct (requests_get srv IdsQuery log) as [log1 [e1 | r]];
    simpl in Hget; subst log1; [reflexivity |].
  unfold response_json. destruct (json_body r) as [v |]; [| reflexivity].
  unfold ret at 1. unfold getitem.
  destruct v; try reflexivity.
  destruct (dict_get kvs "objectIds"); reflexivity.
Qed.

Lemma py_len_log (v : pyval) (log : list request) :
  fst (py_len v log) = log.
Proof. destruct v; reflexivity. Qed.

(** The table of a run that ends normally is the corrected stack of the
    rows the service handed over, labelled by position. *)
Lemma run_fetched (srv : service) (log : list request) (t : table) :
  run float_repr srv = (log, inr t) ->
  t = corrections float_repr
        (add_coordinates (reset_index (fetched srv log))).
Proof.
  unfold run, main. unfold bind at 1.
  pose proof (FetchAllIds_log srv []) as Hids.
  destruct (FetchAllIds srv []) as [log1 [e | object_ids]];
    simpl in Hids; subst log1; [intros H; discriminate H |].
  unfold bind at 1.
  pose proof (py_len_log object_ids [IdsQuery]) as Hlen.
  destruct (py_len object_ids [IdsQuery]) as [log2 [e | n]];
    simpl in Hlen; subst log2; [intros H; discriminate H |].
  unfold bind at 1.
  destruct (fetch_loop srv object_ids (range 0 n batch_size) [] [IdsQuery])
    as [log3 [e | gdfs]] eqn:Eloop; [intros H; discriminate H |].
  apply fetch_loop_frames in Eloop. destruct Eloop as (reqs & -> & ->).
  unfold bind, pd_concat. cbn [app].
  destruct (frames_after srv [IdsQuery] reqs) as [| g gdfs] eqn:Ef.
  - unfold raise. intros H. discriminate H.
  - unfold ret. intros H. inversion H; subst.
    unfold fetched. cbn [frames_after app]. rewrite Ef. reflexivity.
Qed.

Lemma subseq_filter {A : Type} (p : A -> bool) (l : list A) :
  subseq (filter p l) l.
Proof.
  induction l as [| x l IH]; simpl; [constructor |].
  destruct (p x); constructor; exact IH.
Qed.

Lemma reset_index_snoc {A : Type} (l : list A) (x : A) :
  reset_index (l ++ [x]) = reset_index l ++ [(length l, x)].
Proof.
  unfold reset_index.
  assert (H : forall a (l' : list A),
            combine (seq a (length (l' ++ [x]))) (l' ++ [x])
            = combine (seq a (length l')) l' ++ [(a + length l', x)]).
  { intros a l'. revert a. induction l' as [| y l' IH]; intros a; simpl.
    - rewrite Nat.add_0_r. reflexivity.
    - rewrite IH. replace (a + S (length l')) with (S a + length l') by lia.
      reflexivity. }
  apply H.
Qed.

Lemma rows_add_coordinates (l : list feature) :
  map snd (add_coordinates (reset_index l)) = map with_coordinates l.
Proof.
  induction l as [| f l IH] using rev_ind; [reflexivity |].
  rewrite reset_index_snoc. unfold add_coordinates in *.
  rewrite !map_app, IH. reflexivity.
Qed.

Lemma survives_snoc_old (fs : list feature) (f : feature) (i : nat) :
  i < length fs -> survives (fs ++ [f]) i = survives fs i.
Proof.
  intros Hi. unfold survives.
  rewrite nth_error_app1 by exact Hi.
  rewrite firstn_app. replace (i - length fs) with 0 by lia.
  simpl. rewrite app_nil_r. reflexivity.
Qed.

Lemma survives_snoc_new (fs : list feature) (f : feature) :
  survives (fs ++ [f]) (length fs)
  = negb (name_is "Serra de Gentio do Ouro XXIII" (with_coordinates f))
    && negb (existsb (same_key (with_coordinates f))
                     (map with_coordinates fs)).
Proof.
  unfold survives.
  rewrite nth_error_app2 by lia. rewrite Nat.sub_diag. cbn [nth_error].
  rewrite firstn_app, Nat.sub_diag, firstn_all. simpl.
  rewrite app_nil_r. reflexivity.
Qed.

Lemma survives_lt (fs : list feature) (i : nat) :
  survives fs i = true -> i < length fs.
Proof.
  unfold survives. intros H. apply nth_error_Some.
  destruct (nth_error fs i); [intros E; discriminate E | discriminate H].
Qed.

(** After exclusion and deduplication the labels left on a freshly
    indexed stack are the positions of the surviving rows. *)
Lemma index_of_survivors (fs : list feature) :
  index (drop_named "Serra de Gentio do Ouro XXIII"
           (drop_duplicates (add_coordinates (reset_index fs))))
  = filter (survives fs) (seq 0 (length fs)).
Proof.
  induction fs as [| f fs IH] using rev_ind; [reflexivity |].
  rewrite reset_index_snoc. unfold add_coordinates at 1. rewrite map_app.
  fold (add_coordinates (reset_index fs)). cbn [map fst snd].
  unfold drop_duplicates at 1. rewrite drop_duplicates_from_snoc.
  fold (drop_duplicates (add_coordinates (reset_index fs))). cbn [app].
  rewrite seen_among_kept, rows_add_coordinates.
  rewrite length_app, Nat.add_comm. cbn [length Nat.add].
  rewrite seq_S, filter_app. cbn [Nat.add filter].
  rewrite survives_snoc_new.
  rewrite (filter_ext_in (survives (fs ++ [f])) (survives fs)).
  2:{ intros i Hi. apply in_seq in Hi. apply survives_snoc_old. lia. }
  rewrite <- IH.
  destruct (existsb (same_key (with_coordinates f))
                    (map with_coordinates fs)).
  - rewrite andb_false_r. rewrite app_nil_r. reflexivity.
  - unfold drop_named. rewrite filter_app. cbn [filter snd].
    destruct (name_is "Serra de Gentio do Ouro XXIII" (with_coordinates f));
      cbn [negb andb]; unfold index; rewrite map_app; reflexivity.
Qed.

Lemma fix_row_key_both (a b : row) :
  same_key (fix_row float_repr a) (fix_row float_repr b) = same_key a b.
Proof.
  rewrite fix_row_key_left.
  unfold fix_row, operacao_row, power_row, override_row.
  destruct (name_is "Asa Branca III" b);
    match goal with
    | |- context [name_is "Barra XI" ?x] => destruct (name_is "Barra XI" x)
    end; reflexivity.
Qed.

(** C10 (amended).  The index is never reset.  In the table a run writes,
    the index column is exactly the list, in order, of the positions that
    the surviving rows had in the stack of fetched rows, the 0-based
    labels given at concatenation; the row under label [i] is the fetched
    row of position [i].  The column is the plain range 0 .. m-1 exactly
    when no surviving row comes after a removed one: it has a gap as soon
    as a removed row precedes a surviving row, and none when only
    trailing rows were removed. *)
Theorem index_never_reset (srv : service) (log : list request) (t : table) :
  run float_repr srv = (log, inr t) ->
  index t = filter (survives (fetched srv log))
                   (seq 0 (length (fetched srv log))) /\
  (forall i r, In (i, r) t ->
     exists f, nth_error (fetched srv log) i = Some f /\
               NOME_EOL (props r) = NOME_EOL f /\
               DEN_AEG (props r) = DEN_AEG f /\
               geometry (props r) = geometry f) /\
  (contiguous (index t) <->
   (forall i j, i < j -> survives (fetched srv log) j = true ->
                survives (fetched srv log) i = true)) /\
  (forall i j, i < j ->
     survives (fetched srv log) i = false ->
     survives (fetched srv log) j = true ->
     ~ contiguous (index t)).
Proof.
  intros Hrun. pose proof (run_fetched srv log t Hrun) as Ht.
  set (fs := fetched srv log) in *.
  assert (Hidx : index t = filter (survives fs) (seq 0 (length fs))).
  { subst t. rewrite corrections_shape.
    rewrite drop_duplicates_on_rows by apply fix_row_key_both.
    rewrite index_on_rows, drop_duplicates_drop_named.
    apply index_of_survivors. }
  assert (Hgap : contiguous (index t) <->
            (forall i j, i < j -> survives fs j = true ->
                         survives fs i = true)).
  { unfold contiguous. rewrite Hidx.
    rewrite (subseq_seq_contiguous (length fs) 0 _
               (subseq_filter (survives fs) (seq 0 (length fs)))).
    split.
    - intros H i j Hij Hj.
      assert (Hin : In i (filter (survives fs) (seq 0 (length fs)))).
      { apply (H i j); [lia | exact Hij |].
        apply filter_In. split; [| exact Hj].
        apply in_seq. pose proof (survives_lt fs j Hj). lia. }
      apply filter_In in Hin. apply Hin.
    - intros H i j _ Hij Hj. apply filter_In in Hj. destruct Hj as [Hj Hs].
      apply in_seq in Hj. apply filter_In. split.
      + apply in_seq. lia.
      + exact (H i j Hij Hs). }
  split; [exact Hidx |]. split; [| split; [exact Hgap |]].
  - intros i r Hin. rewrite Ht in Hin. apply in_corrections in Hin.
    destruct Hin as (r0 & Hin & -> & _).
    unfold add_coordinates in Hin. apply in_map_iff in Hin.
    destruct Hin as ([j f] & E & Hin). simpl in E. inversion E; subst.
    exists f. split; [apply reset_index_nth; exact Hin |].
    unfold fix_row, operacao_row, power_row, override_row.
    destruct (name_is "Asa Branca III" (with_coordinates f));
      match goal with
      | |- context [name_is "Barra XI" ?x] => destruct (name_is "Barra XI" x)
      end; repeat split; reflexivity.
  - intros i j Hij Hi Hj Hc.
    pose proof (proj1 Hgap Hc i j Hij Hj) as E.
    rewrite E in Hi. discriminate Hi.
Qed.

End IndexClaims.

Lemma index_never_reset_witness :
  exists log t,
    run Samples.sample_repr MoreSamples.gap_service = (log, inr t) /\
    index t = [0; 2] /\
    ~ contiguous (index t).
Proof.
  exists [IdsQuery; BatchQuery (PyList [PyInt 1; PyInt 2; PyInt 3])].
  exists [(0, fix_row Samples.sample_repr
                (with_coordinates Samples.serra_do_1));
          (2, fix_row Samples.sample_repr
                (with_coordinates Samples.juramento_1))].
  assert (Hrun : run Samples.sample_repr MoreSamples.gap_service
                 = ([IdsQuery; BatchQuery (PyList [PyInt 1; PyInt 2; PyInt 3])],
                    inr [(0, fix_row Samples.sample_repr
                               (with_coordinates Samples.serra_do_1));
                         (2, fix_row Samples.sample_repr
                               (with_coordinates Samples.juramento_1))]))
    by (vm_compute; reflexivity).
  destruct (index_never_reset Samples.sample_repr MoreSamples.gap_service
              _ _ Hrun) as (Hidx & _ & _ & Hgap).
  split; [exact Hrun |]. split; [reflexivity |].
  apply (Hgap 1 2); [lia | reflexivity | reflexivity].
Defined.

(** C10, as stated, fails: when the batch holds the same turbine twice the
    second row is removed, and the index column of the written table is
    [0], the plain range, with no gap. *)
Lemma trailing_removal_leaves_no_gap :
  snd (run Samples.sample_repr Samples.twin_service)
  = inr (corrections Samples.sample_repr
           (add_coordinates
              (reset_index [Samples.serra_do_1; Samples.serra_do_1_again]))) /\
  length (corrections Samples.sample_repr
            (add_coordinates
               (reset_index [Samples.serra_do_1; Samples.serra_do_1_again])))
  < length [Samples.serra_do_1; Samples.serra_do_1_again] /\
  contiguous (index (corrections Samples.sample_repr
            (add_coordinates
               (reset_index [Samples.serra_do_1; Samples.serra_do_1_again])))).
Proof.
  split; [vm_compute; reflexivity |]. split.
  - change (1 < 2). lia.
  - reflexivity.
Qed.

(** When the removed row comes first, the column starts at 1. *)
Example leading_removal_leaves_gap :
  index (corrections Samples.sample_repr
           (add_coordinates
              (reset_index [Samples.serra_de_1; Samples.serra_do_1])))
  = [1].
Proof. reflexivity. Qed.

(* ================================================================== *)
(** * Part III: further properties of the script *)
(* ================================================================== *)

(** ** Runs of the whole script *)

Section RunFacts.
Local Open Scope script_scope.

Variable float_repr : float -> string.

(** Whatever the service does, the loop sends the chunk requests in order
    and stops at the first one that raises. *)
Lemma fetch_loop_trace (srv : service) (l : list pyval) (starts : list nat)
  (gdfs : list (list feature)) (log : list request) :
  exists k,
    k <= length starts /\
    fst (fetch_loop srv (PyList l) starts gdfs log)
    = log ++ map (chunk_request l) (firstn k starts) /\
    (forall res, snd (fetch_loop srv (PyList l) starts gdfs log) = inr res ->
       k = length starts) /\
    (forall e, snd (fetch_loop srv (PyList l) starts gdfs log) = inl e ->
       exists i, nth_error starts (k - 1) = Some i /\ 0 < k /\
         FetchObjectsBatch srv (PyList (slice l i (i + batch_size)))
           (log ++ map (chunk_request l) (firstn (k - 1) starts))
         = (log ++ map (chunk_request l) (firstn k starts), inl e)).
Proof.
  revert gdfs log. induction starts as [| i starts IH]; intros gdfs log.
  - exists 0. cbn [fetch_loop firstn map length]. unfold ret.
    cbn [fst snd]. rewrite app_nil_r.
    split; [lia |]. split; [reflexivity |].
    split; [reflexivity |]. intros e H. discriminate H.
  - assert (Estep :
      fetch_loop srv (PyList l) (i :: starts) gdfs log
      = match FetchObjectsBatch srv (PyList (slice l i (i + batch_size))) log
        with
        | (log', inl e) => (log', inl e)
        | (log', inr g) => fetch_loop srv (PyList l) starts (gdfs ++ [g]) log'
        end) by reflexivity.
    rewrite Estep. clear Estep.
    pose proof (FetchObjectsBatch_log srv
                  (PyList (slice l i (i + batch_size))) log) as Hlog.
    destruct (FetchObjectsBatch srv (PyList (slice l i (i + batch_size))) log)
      as [log1 [e | gdf_batch]] eqn:Efetch; simpl in Hlog; subst log1.
    + exists 1. cbn [firstn map fst snd length].
      split; [lia |]. split; [reflexivity |].
      split; [intros res H; discriminate H |].
      intros e' H. inversion H; subst e'.
      exists i. split; [reflexivity |]. split; [lia |].
      cbn [Nat.sub firstn map]. rewrite app_nil_r. exact Efetch.
    + destruct (IH (gdfs ++ [gdf_batch])
                   (log ++ [BatchQuery (PyList (slice l i (i + batch_size)))]))
        as (k & Hk & Hfst & Hok & Herr).
      exists (S k). cbn [firstn map length].
      split; [lia |]. split.
      { rewrite Hfst, <- app_assoc. reflexivity. }
      split.
      { intros res H. f_equal. exact (Hok res H). }
      intros e H. destruct (Herr e H) as (j & Hj & Hpos & Hfetch).
      exists j. replace (S k - 1) with (S (k - 1)) by lia.
      split; [exact Hj |]. split; [lia |].
      cbn [firstn map]. rewrite <- !app_assoc in Hfetch. exact Hfetch.
Qed.

End RunFacts.

Section RunProperties.
Local Open Scope script_scope.

Variable float_repr : float -> string.

Lemma range_nonempty (n step : nat) : 0 < n -> range 0 n step <> [].
Proof.
  intros Hn. unfold range. destruct n as [| n]; [lia |]. simpl.
  intros H. discriminate H.
Qed.

(** What [main] does once the id-list query has returned. *)
Lemma main_after_ids (srv : service) (v : pyval) :
  FetchAllIds srv [] = ([IdsQuery], inr v) ->
  run float_repr srv
  = (n <- py_len v ;;
     gdfs <- fetch_loop srv v (range 0 n batch_size) [] ;;
     gdf_total <- pd_concat gdfs ;;
     ret (corrections float_repr (add_coordinates gdf_total))) [IdsQuery].
Proof.
  intros H. unfold run, main. unfold bind at 1. rewrite H. reflexivity.
Qed.

(** The same when it has returned a list. *)
Lemma main_on_list (srv : service) (l : list pyval) :
  FetchAllIds srv [] = ([IdsQuery], inr (PyList l)) ->
  run float_repr srv
  = match fetch_loop srv (PyList l) (range 0 (length l) batch_size) []
            [IdsQuery] with
    | (log, inl e) => (log, inl e)
    | (log, inr []) => (log, inl ValueError)
    | (log, inr (g :: gdfs)) =>
        (log, inr (corrections float_repr
                     (add_coordinates (reset_index (concat (g :: gdfs))))))
    end.
Proof.
  intros Hids. rewrite (main_after_ids srv _ Hids).
  unfold bind at 1. cbn [py_len]. unfold ret at 1. unfold bind at 1.
  destruct (fetch_loop srv (PyList l) (range 0 (length l) batch_size) []
              [IdsQuery]) as [log [e | [| g gdfs]]]; reflexivity.
Qed.

(** X2.  The run sends the id-list request, then chunk requests in order, each
    at most once, and nothing after one that raises; it ends normally only
    after all of them. *)
Theorem run_sends_chunks_in_order (srv : service) (l : list pyval) :
  FetchAllIds srv [] = ([IdsQuery], inr (PyList l)) ->
  exists k,
    k <= length (batches l) /\
    fst (run float_repr srv)
    = IdsQuery :: map (fun c => BatchQuery (PyList c)) (firstn k (batches l)) /\
    (forall t, snd (run float_repr srv) = inr t -> k = length (batches l)).
Proof.
  intros Hids. rewrite (main_on_list srv l Hids).
  destruct (fetch_loop_trace srv l (range 0 (length l) batch_size) []
              [IdsQuery]) as (k & Hk & Hfst & Hok & _).
  assert (Hlen : length (batches l) = length (range 0 (length l) batch_size)).
  { unfold batches, batches_of. apply length_map. }
  assert (Hmap : map (fun c => BatchQuery (PyList c)) (firstn k (batches l))
                 = map (chunk_request l)
                       (firstn k (range 0 (length l) batch_size))).
  { unfold batches, batches_of. rewrite firstn_map, map_map. reflexivity. }
  exists k. rewrite Hlen, Hmap. split; [exact Hk |].
  destruct (fetch_loop srv (PyList l) (range 0 (length l) batch_size) []
              [IdsQuery]) as [log1 [e | [| g gdfs]]];
    cbn [fst snd] in Hfst, Hok |- *; subst log1.
  - split; [reflexivity |]. intros t H. discriminate H.
  - split; [reflexivity |]. intros t H. discriminate H.
  - split; [reflexivity |]. intros t _. apply (Hok (g :: gdfs)). reflexivity.
Qed.

(** X4.  An empty identifier list: no batch request is sent and the
    concatenation of no frame raises [ValueError]. *)
Theorem run_without_identifiers (srv : service) :
  FetchAllIds srv [] = ([IdsQuery], inr (PyList [])) ->
  run float_repr srv = ([IdsQuery], inl ValueError).
Proof.
  intros Hids. rewrite (main_after_ids srv _ Hids). reflexivity.
Qed.

(** X5.  An id-list answer whose body does not decode, decodes to something
    that is not an object, or decodes to an object without the
    [objectIds] key ends the run at once, whatever its status. *)
Theorem run_malformed_id_answer (srv : service) (r : response) :
  srv [] IdsQuery = inr r ->
  (json_body r = None ->
   run float_repr srv = ([IdsQuery], inl JSONDecodeError)) /\
  (forall kvs, json_body r = Some (PyDict kvs) ->
     dict_get kvs "objectIds" = None ->
     run float_repr srv = ([IdsQuery], inl (KeyError "objectIds"))) /\
  (forall v, json_body r = Some v -> (forall kvs, v <> PyDict kvs) ->
     run float_repr srv = ([IdsQuery], inl TypeError)).
Proof.
  intros Hsrv.
  assert (Hget : requests_get srv IdsQuery [] = ([IdsQuery], inr r)).
  { unfold requests_get. rewrite Hsrv. reflexivity. }
  split; [| split].
  - intros Hbody. unfold run, main, FetchAllIds, bind. rewrite Hget.
    unfold response_json. rewrite Hbody. reflexivity.
  - intros kvs Hbody Hkey. unfold run, main, FetchAllIds, bind. rewrite Hget.
    unfold response_json. rewrite Hbody. unfold ret at 1.
    cbn [getitem]. rewrite Hkey. reflexivity.
  - intros v Hbody Hv. unfold run, main, FetchAllIds, bind. rewrite Hget.
    unfold response_json. rewrite Hbody. unfold ret at 1.
    destruct v; try reflexivity. exfalso. apply (Hv kvs). reflexivity.
Qed.

(** X6.  When [objectIds] holds no sequence (null, a number, an object), the
    run raises without sending a batch request; for a null or a number
    the exception is [TypeError], raised by [len]. *)
Theorem run_ids_not_a_sequence (srv : service) (v : pyval) :
  FetchAllIds srv [] = ([IdsQuery], inr v) ->
  (forall l, v <> PyList l) -> (forall s, v <> PyStr s) ->
  fst (run float_repr srv) = [IdsQuery] /\
  exists e, snd (run float_repr srv) = inl e /\
            ((forall kvs, v <> PyDict kvs) -> e = TypeError).
Proof.
  intros Hids Hl Hs. rewrite (main_after_ids srv _ Hids).
  destruct v as [| z | f | s | l | kvs].
  - split; [reflexivity |]. exists TypeError. split; reflexivity.
  - split; [reflexivity |]. exists TypeError. split; reflexivity.
  - split; [reflexivity |]. exists TypeError. split; reflexivity.
  - exfalso. apply (Hs s). reflexivity.
  - exfalso. apply (Hl l). reflexivity.
  - destruct kvs as [| kv kvs].
    + split; [reflexivity |]. exists ValueError.
      split; [reflexivity |]. intros H. exfalso. apply (H []). reflexivity.
    + unfold bind at 1. cbn [py_len]. unfold ret at 1. unfold bind at 1.
      pose proof (range_nonempty (length (kv :: kvs)) batch_size) as Hne.
      destruct (range 0 (length (kv :: kvs)) batch_size) as [| i starts];
        [exfalso; apply Hne; [simpl; lia | reflexivity] |].
      split; [reflexivity |]. exists TypeError.
      split; [reflexivity |]. intros _. reflexivity.
Qed.

End RunProperties.

Section LoopOutcome.
Local Open Scope script_scope.

Variable srv : service.
Variable l : list pyval.

Lemma chunk_requests_of_batches (n : nat) :
  map (chunk_request l) (firstn n (range 0 (length l) batch_size))
  = map (fun c => BatchQuery (PyList c)) (firstn n (batches l)).
Proof.
  unfold batches, batches_of. rewrite firstn_map, map_map. reflexivity.
Qed.

(** X3.  When the loop over the chunks of a list raises, the exception is
    the one [FetchObjectsBatch] raised on the last request sent, the
    request for some chunk; the chunks before it had been requested, in
    order, and nothing was sent after it. *)
Theorem fetch_loop_fails_at_first_bad_batch (gdfs : list (list feature))
  (log log' : list request) (e : exn) :
  fetch_loop srv (PyList l) (range 0 (length l) batch_size) gdfs log
  = (log', inl e) ->
  exists k c,
    nth_error (batches l) k = Some c /\
    log' = log ++ map (fun c => BatchQuery (PyList c))
                      (firstn (S k) (batches l)) /\
    FetchObjectsBatch srv (PyList c)
      (log ++ map (fun c => BatchQuery (PyList c)) (firstn k (batches l)))
    = (log', inl e).
Proof.
  intros Hrun.
  destruct (fetch_loop_trace srv l (range 0 (length l) batch_size) gdfs log)
    as (k & Hk & Hfst & _ & Herr).
  rewrite Hrun in Hfst, Herr. cbn [fst snd] in Hfst, Herr.
  destruct (Herr e eq_refl) as (i & Hi & Hpos & Hf).
  exists (k - 1), (slice l i (i + batch_size)).
  replace (S (k - 1)) with k by lia.
  rewrite <- !chunk_requests_of_batches.
  split; [| split].
  - unfold batches, batches_of. rewrite nth_error_map, Hi. reflexivity.
  - exact Hfst.
  - rewrite Hfst. exact Hf.
Qed.

(** The loop run from the middle: the starts already done, those to do. *)
Lemma fetch_loop_from (answer : nat -> list feature)
  (log : list request) (todo done : list nat) (gdfs : list (list feature)) :
  (forall k i, nth_error (done ++ todo) k = Some i ->
     length done <= k ->
     exists r,
       srv (log ++ map (chunk_request l) (firstn k (done ++ todo)))
           (chunk_request l i) = inr r /\
       ((status_code r < 400)%Z \/ (600 <= status_code r)%Z) /\
       geo_body r = Some (answer k)) ->
  fetch_loop srv (PyList l) todo gdfs (log ++ map (chunk_request l) done)
  = (log ++ map (chunk_request l) (done ++ todo),
     inr (gdfs ++ map answer (seq (length done) (length todo)))).
Proof.
  revert done gdfs. induction todo as [| i todo IH]; intros done gdfs Hsrv.
  - simpl. rewrite !app_nil_r. reflexivity.
  - destruct (Hsrv (length done) i) as (r & Hr & Hst & Hgeo).
    { rewrite nth_error_app2 by lia. rewrite Nat.sub_diag. reflexivity. }
    { lia. }
    rewrite firstn_app, Nat.sub_diag, firstn_all in Hr. simpl in Hr.
    rewrite app_nil_r in Hr.
    assert (Hfetch :
      FetchObjectsBatch srv (PyList (slice l i (i + batch_size)))
        (log ++ map (chunk_request l) done)
      = ((log ++ map (chunk_request l) done) ++ [chunk_request l i],
         inr (answer (length done)))).
    { unfold FetchObjectsBatch, bind, requests_get.
      fold (chunk_request l i). rewrite Hr. unfold raise_for_status.
      replace ((400 <=? status_code r)%Z && (status_code r <? 600)%Z)
        with false.
      - unfold ret at 1. unfold read_file. rewrite Hgeo. reflexivity.
      - symmetry. apply andb_false_iff.
        destruct Hst as [Hlo | Hhi];
          [left; apply Z.leb_gt | right; apply Z.ltb_ge]; lia. }
    cbn [fetch_loop]. unfold bind at 1. cbn [py_slice]. unfold ret at 1.
    unfold bind at 1. rewrite Hfetch.
    specialize (IH (done ++ [i]) (gdfs ++ [answer (length done)])).
    rewrite map_app, app_assoc in IH. cbn [map] in IH.
    rewrite IH.
    + rewrite <- !app_assoc. cbn [app length seq map].
      rewrite length_app, Nat.add_comm. reflexivity.
    + intros k j Hk Hle. rewrite <- app_assoc in Hk |- *.
      apply (Hsrv k j Hk). rewrite length_app in Hle. simpl in Hle. lia.
Qed.

(** X1.  The loop over the chunks of a list ends normally as soon as each
    request it really sends, the one for chunk [k] after those for the
    chunks before it, is answered with a status outside 400-599 and a
    body that decodes: it has then sent one request per chunk, in order,
    and returns the decoded frames in chunk order. *)
Theorem fetch_loop_succeeds (answer : nat -> list feature)
  (log : list request) :
  (forall k c, nth_error (batches l) k = Some c ->
     exists r,
       srv (log ++ map (fun c => BatchQuery (PyList c))
                       (firstn k (batches l)))
           (BatchQuery (PyList c)) = inr r /\
       ((status_code r < 400)%Z \/ (600 <= status_code r)%Z) /\
       geo_body r = Some (answer k)) ->
  fetch_loop srv (PyList l) (range 0 (length l) batch_size) [] log
  = (log ++ map (fun c => BatchQuery (PyList c)) (batches l),
     inr (map answer (seq 0 (length (batches l))))).
Proof.
  intros Hsrv.
  pose proof (fetch_loop_from answer log (range 0 (length l) batch_size)
                [] []) as H.
  cbn [map app length] in H. rewrite app_nil_r in H. rewrite H.
  - unfold batches, batches_of. rewrite map_map, length_map. reflexivity.
  - intros k i Hk _. rewrite chunk_requests_of_batches.
    apply (Hsrv k (slice l i (i + batch_size))).
    unfold batches, batches_of. rewrite nth_error_map, Hk. reflexivity.
Qed.

End LoopOutcome.

Lemma run_sends_chunks_in_order_witness :
  exists k,
    k <= length (batches [PyInt 1; PyInt 2; PyInt 3]) /\
    fst (run Samples.sample_repr Samples.failing_batch_service)
    = IdsQuery :: map (fun c => BatchQuery (PyList c))
                      (firstn k (batches [PyInt 1; PyInt 2; PyInt 3])).
Proof.
  destruct (run_sends_chunks_in_order Samples.sample_repr
              Samples.failing_batch_service [PyInt 1; PyInt 2; PyInt 3])
    as (k & Hk & Hfst & _).
  - reflexivity.
  - exists k. split; [exact Hk | exact Hfst].
Defined.

Lemma run_without_identifiers_witness :
  run Samples.sample_repr (Samples.steady_service [])
  = ([IdsQuery], inl ValueError).
Proof.
  apply (run_without_identifiers Samples.sample_repr
           (Samples.steady_service [])).
  reflexivity.
Defined.

Lemma run_malformed_id_answer_witness :
  run Samples.sample_repr
      (fun _ _ => inr (mkResponse 200 (Some (PyDict [("error", PyInt 400)]))
                         None))
  = ([IdsQuery], inl (KeyError "objectIds")).
Proof.
  apply (proj1 (proj2 (run_malformed_id_answer Samples.sample_repr
           (fun _ _ => inr (mkResponse 200
                              (Some (PyDict [("error", PyInt 400)])) None))
           (mkResponse 200 (Some (PyDict [("error", PyInt 400)])) None)
           eq_refl)) [("error", PyInt 400)]); reflexivity.
Defined.

Lemma run_ids_not_a_sequence_witness :
  fst (run Samples.sample_repr
         (fun _ _ => inr (mkResponse 200
                            (Some (PyDict [("objectIds", PyNone)])) None)))
  = [IdsQuery].
Proof.
  apply (run_ids_not_a_sequence Samples.sample_repr
           (fun _ _ => inr (mkResponse 200
                              (Some (PyDict [("objectIds", PyNone)])) None))
           PyNone).
  - reflexivity.
  - intros l H. discriminate H.
  - intros s H. discriminate H.
Defined.

Lemma fetch_loop_fails_at_first_bad_batch_witness :
  exists k c,
    nth_error (batches Samples.ids1500) k = Some c /\
    FetchObjectsBatch (MoreSamples.second_batch_fails Samples.ids1500)
      (PyList c)
      ([IdsQuery] ++ map (fun c => BatchQuery (PyList c))
                         (firstn k (batches Samples.ids1500)))
    = ([IdsQuery] ++ map (fun c => BatchQuery (PyList c))
                         (firstn (S k) (batches Samples.ids1500)),
       inl (HTTPError 503)).
Proof.
  destruct (fetch_loop_fails_at_first_bad_batch
              (MoreSamples.second_batch_fails Samples.ids1500)
              Samples.ids1500 [] [IdsQuery]
              ([IdsQuery] ++ map (fun c => BatchQuery (PyList c))
                                 (batches Samples.ids1500))
              (HTTPError 503))
    as (k & c & Hc & Hlog & Hf).
  - vm_compute. reflexivity.
  - exists k, c. split; [exact Hc |]. rewrite <- Hlog. exact Hf.
Defined.

Lemma fetch_loop_succeeds_witness :
  fetch_loop (Samples.steady_service Samples.ids1500)
    (PyList Samples.ids1500) (range 0 (length Samples.ids1500) batch_size) []
    [IdsQuery]
  = ([IdsQuery] ++ map (fun c => BatchQuery (PyList c))
                       (batches Samples.ids1500),
     inr (map (fun _ => [Samples.juramento_1])
              (seq 0 (length (batches Samples.ids1500))))).
Proof.
  apply (fetch_loop_succeeds (Samples.steady_service Samples.ids1500)
           Samples.ids1500 (fun _ => [Samples.juramento_1]) [IdsQuery]).
  intros k c _. eexists. split; [reflexivity |].
  split; [left; simpl; lia | reflexivity].
Defined.

(** ** What the rules do to the columns *)

Section ColumnProperties.

Variable float_repr : float -> string.

Lemma name_is_exclusive (n1 n2 : string) (r : row) :
  n1 <> n2 -> name_is n1 r = true -> name_is n2 r = false.
Proof.
  unfold name_is. intros Hne H1.
  destruct (NOME_EOL (props r)) as [n |]; [| reflexivity].
  apply String.eqb_eq in H1. subst n.
  apply String.eqb_neq. exact Hne.
Qed.

(** The state of a rewritten row. *)
Lemma fix_row_UF (r0 : row) :
  UF (props (fix_row float_repr r0))
  = if name_is "Barra XI" r0 then Some "MG"
    else if name_is "Asa Branca III" r0 then Some "RN"
    else UF (props r0).
Proof.
  unfold fix_row.
  change (UF (props (operacao_row float_repr (power_row ?x))))
    with (UF (props x)).
  unfold override_row at 1. rewrite override_row_name_is.
  destruct (name_is "Barra XI" r0); [reflexivity |].
  unfold override_row. destruct (name_is "Asa Branca III" r0); reflexivity.
Qed.

(** X8.  In the corrected table every row named "Asa Branca III" has the
    state "RN" and every row named "Barra XI" the state "MG", whatever
    the input held, a null included; every other row keeps the state of
    the input row it comes from. *)
Theorem corrections_set_UF (t : table) (i : nat) (r : row) :
  In (i, r) (corrections float_repr t) ->
  (name_is "Asa Branca III" r = true -> UF (props r) = Some "RN") /\
  (name_is "Barra XI" r = true -> UF (props r) = Some "MG") /\
  (name_is "Asa Branca III" r = false -> name_is "Barra XI" r = false ->
   exists r0, In (i, r0) t /\ r = fix_row float_repr r0 /\
              UF (props r) = UF (props r0)).
Proof.
  intros Hin. apply in_corrections in Hin.
  destruct Hin as (r0 & Hin & -> & _).
  rewrite !fix_row_name_is, fix_row_UF.
  assert (Hne : "Asa Branca III" <> "Barra XI") by (intros H; discriminate H).
  split; [| split].
  - intros Ha. rewrite (name_is_exclusive _ _ r0 Hne Ha), Ha. reflexivity.
  - intros Hb. rewrite Hb. reflexivity.
  - intros Ha Hb. exists r0. rewrite Ha, Hb.
    split; [exact Hin |]. split; reflexivity.
Qed.

(** X9.  A row of the corrected table comes from the input row with its
    label: name, designation, geometry, coordinates and the remaining
    attributes are those of that row, the power is its corrected power and
    the operation status its normalized status. *)
Theorem corrections_columns (t : table) (i : nat) (r : row) :
  In (i, r) (corrections float_repr t) ->
  exists r0,
    In (i, r0) t /\
    NOME_EOL (props r) = NOME_EOL (props r0) /\
    DEN_AEG (props r) = DEN_AEG (props r0) /\
    geometry (props r) = geometry (props r0) /\
    other (props r) = other (props r0) /\
    longitude r = longitude r0 /\
    latitude r = latitude r0 /\
    POT_MW (props r) = CorrectNominalPower (POT_MW (props r0)) /\
    OPERACAO (props r) = normalize_operacao float_repr (OPERACAO (props r0)).
Proof.
  intros Hin. apply in_corrections in Hin.
  destruct Hin as (r0 & Hin & -> & _).
  exists r0. split; [exact Hin |].
  unfold fix_row, operacao_row, power_row, override_row.
  destruct (name_is "Asa Branca III" r0);
    match goal with
    | |- context [name_is "Barra XI" ?x] => destruct (name_is "Barra XI" x)
    end; repeat split; reflexivity.
Qed.

(** The normalized status is never missing and never reads "1". *)
Lemma normalize_operacao_settled (x : cell) :
  pd_isna (normalize_operacao float_repr x) = false /\
  py_str float_repr (normalize_operacao float_repr x) <> "1".
Proof.
  unfold normalize_operacao.
  destruct (pd_isna x) eqn:Hna.
  - split; [reflexivity | intros H; discriminate H].
  - destruct (String.eqb_spec (py_str float_repr x) "1") as [E | Hne].
    + split; [reflexivity | intros H; discriminate H].
    + split; [exact Hna | exact Hne].
Qed.

(** X10.  The status column of the corrected table has no missing value and no
    value whose string form is "1"; in particular no text "1". *)
Theorem corrections_status_settled (t : table) (i : nat) (r : row) :
  In (i, r) (corrections float_repr t) ->
  pd_isna (OPERACAO (props r)) = false /\
  py_str float_repr (OPERACAO (props r)) <> "1" /\
  OPERACAO (props r) <> CStr "1".
Proof.
  intros Hin. apply in_corrections in Hin.
  destruct Hin as (r0 & _ & -> & _).
  change (OPERACAO (props (fix_row float_repr r0)))
    with (normalize_operacao float_repr
            (OPERACAO (props (power_row
               (override_row "Barra XI" "MG"
                  (override_row "Asa Branca III" "RN" r0)))))).
  destruct (normalize_operacao_settled
              (OPERACAO (props (power_row
                 (override_row "Barra XI" "MG"
                    (override_row "Asa Branca III" "RN" r0))))))
    as [Hna Hstr].
  split; [exact Hna |]. split; [exact Hstr |].
  intros E. apply Hstr. rewrite E. reflexivity.
Qed.

End ColumnProperties.

(** ** Keys of the corrected table *)

Section KeyProperties.

Variable float_repr : float -> string.

Lemma text_same_sym (a b : option string) : text_same a b = text_same b a.
Proof.
  destruct a, b; simpl; try reflexivity. apply String.eqb_sym.
Qed.

Lemma float_same_sym (a b : float) : float_same a b = float_same b a.
Proof.
  unfold float_same. rewrite !FloatAxioms.eqb_spec. unfold SFeqb.
  rewrite (SFcompare_swap (Prim2SF a) (Prim2SF b)).
  rewrite (andb_comm (PrimFloat.is_nan a)).
  destruct (SFcompare (Prim2SF a) (Prim2SF b)) as [[ | | ] | ]; reflexivity.
Qed.

Lemma same_key_sym (a b : row) : same_key a b = same_key b a.
Proof.
  unfold same_key.
  rewrite (text_same_sym (NOME_EOL (props a))),
          (text_same_sym (DEN_AEG (props a))),
          (float_same_sym (latitude a)), (float_same_sym (longitude a)).
  reflexivity.
Qed.

(** A kept row matches none of the rows seen before the scan. *)
Lemma drop_duplicates_from_fresh (seen : list row) (t : table)
  (i : nat) (r : row) :
  In (i, r) (drop_duplicates_from seen t) ->
  existsb (same_key r) seen = false.
Proof.
  revert seen. induction t as [| [j q] t IH]; intros seen; simpl; [tauto |].
  destruct (existsb (same_key q) seen) eqn:E.
  - apply IH.
  - intros [H | H].
    + inversion H; subst. exact E.
    + apply IH in H. rewrite existsb_app in H.
      apply orb_false_iff in H. apply H.
Qed.

Lemma drop_duplicates_from_distinct (seen : list row) (t : table) :
  ForallOrdPairs (fun x y => same_key (snd x) (snd y) = false)
                 (drop_duplicates_from seen t).
Proof.
  revert seen. induction t as [| [j q] t IH]; intros seen; simpl;
    [constructor |].
  destruct (existsb (same_key q) seen) eqn:E; [apply IH |].
  constructor; [| apply IH].
  apply Forall_forall. intros [i r] Hin. simpl.
  apply drop_duplicates_from_fresh in Hin.
  rewrite existsb_app in Hin. apply orb_false_iff in Hin.
  destruct Hin as [_ Hin]. simpl in Hin. rewrite orb_false_r in Hin.
  rewrite same_key_sym. exact Hin.
Qed.

(** A table whose rows match neither each other nor the rows seen is
    left as it is. *)
Lemma drop_duplicates_from_clean (seen : list row) (t : table) :
  Forall (fun x => existsb (same_key (snd x)) seen = false) t ->
  ForallOrdPairs (fun x y => same_key (snd x) (snd y) = false) t ->
  drop_duplicates_from seen t = t.
Proof.
  revert seen. induction t as [| [j q] t IH]; intros seen Hseen Hpairs;
    simpl; [reflexivity |].
  inversion Hseen as [| x t' Hq Hseen']; subst.
  inversion Hpairs as [| x t' Hqt Hpairs']; subst.
  simpl in Hq. rewrite Hq. f_equal. apply IH; [| exact Hpairs'].
  rewrite Forall_forall in Hseen', Hqt |- *. intros [i r] Hin.
  rewrite existsb_app. apply orb_false_iff. split.
  - exact (Hseen' _ Hin).
  - simpl. rewrite orb_false_r, same_key_sym. exact (Hqt _ Hin).
Qed.

(** X11.  No two rows of the corrected table agree on
    (NOME_EOL, DEN_AEG, latitude, longitude). *)
Theorem corrections_keys_distinct (t : table) :
  ForallOrdPairs (fun x y => same_key (snd x) (snd y) = false)
                 (corrections float_repr t).
Proof.
  rewrite corrections_shape. apply drop_duplicates_from_distinct.
Qed.

Lemma fix_row_key_right (a b : row) :
  same_key a (fix_row float_repr b) = same_key a b.
Proof.
  rewrite same_key_sym, fix_row_key_left. apply same_key_sym.
Qed.

(** X12.  A table with no row of the excluded name and no two rows agreeing on
    the key loses no row: every row is rewritten in place, under its
    label. *)
Theorem corrections_of_clean_table (t : table) :
  Forall (fun x => name_is "Serra de Gentio do Ouro XXIII" (snd x) = false) t ->
  ForallOrdPairs (fun x y => same_key (snd x) (snd y) = false) t ->
  corrections float_repr t = on_rows (fix_row float_repr) t /\
  length (corrections float_repr t) = length t /\
  index (corrections float_repr t) = index t.
Proof.
  intros Hnames Hkeys.
  assert (E : corrections float_repr t = on_rows (fix_row float_repr) t).
  { rewrite corrections_shape.
    assert (Hdrop : drop_named "Serra de Gentio do Ouro XXIII" t = t).
    { unfold drop_named. clear Hkeys.
      induction t as [| x t IH]; simpl; [reflexivity |].
      inversion Hnames; subst.
      match goal with H : name_is _ (snd x) = false |- _ => rewrite H end.
      simpl. f_equal. apply IH. assumption. }
    rewrite Hdrop. apply drop_duplicates_from_clean; [| clear Hnames Hdrop].
    - apply Forall_forall. intros. reflexivity.
    - induction Hkeys as [| x t' Hx Hrest IH]; simpl; constructor.
      + unfold on_rows. apply Forall_forall. intros [i r] Hin.
        apply in_map_iff in Hin. destruct Hin as (y & Ey & Hy).
        inversion Ey; subst; clear Ey. simpl.
        rewrite fix_row_key_left, fix_row_key_right.
        rewrite Forall_forall in Hx. exact (Hx _ Hy).
      + exact IH. }
  split; [exact E |]. rewrite E. split.
  - unfold on_rows. apply length_map.
  - apply index_on_rows.
Qed.

End KeyProperties.

(** ** Running the rules twice *)

Section TwiceProperties.

Variable float_repr : float -> string.

Lemma normalize_operacao_idempotent (x : cell) :
  normalize_operacao float_repr (normalize_operacao float_repr x)
  = normalize_operacao float_repr x.
Proof.
  destruct (normalize_operacao_settled float_repr x) as [Hna Hstr].
  unfold normalize_operacao at 1. rewrite Hna.
  destruct (String.eqb_spec
              (py_str float_repr (normalize_operacao float_repr x)) "1")
    as [E | _]; [contradiction | reflexivity].
Qed.

Lemma drop_named_idempotent (name : string) (t : table) :
  drop_named name (drop_named name t) = drop_named name t.
Proof.
  unfold drop_named. induction t as [| x t IH]; simpl; [reflexivity |].
  destruct (negb (name_is name (snd x))) eqn:E; simpl; [| exact IH].
  rewrite E, IH. reflexivity.
Qed.

Lemma override_row_idempotent (name uf : string) (r : row) :
  override_row name uf (override_row name uf r) = override_row name uf r.
Proof.
  unfold override_row at 1. rewrite override_row_name_is.
  unfold override_row. destruct (name_is name r); reflexivity.
Qed.

Lemma on_rows_idempotent (f : row -> row) (t : table) :
  (forall r, f (f r) = f r) -> on_rows f (on_rows f t) = on_rows f t.
Proof.
  intros H. rewrite on_rows_compose. unfold on_rows. apply map_ext.
  intros [i r]. simpl. rewrite H. reflexivity.
Qed.

Lemma drop_duplicates_idempotent (t : table) :
  drop_duplicates (drop_duplicates t) = drop_duplicates t.
Proof.
  unfold drop_duplicates at 1. apply drop_duplicates_from_clean.
  - apply Forall_forall. intros. reflexivity.
  - apply drop_duplicates_from_distinct.
Qed.

(** X13.  Each rule but the power rule changes nothing when applied a second
    time; the power rule does, a power of 150000 being sent to 150 and
    then to 0.15. *)
Theorem rules_applied_twice (t : table) :
  rule_exclusion (rule_exclusion t) = rule_exclusion t /\
  rule_uf_asa_branca (rule_uf_asa_branca t) = rule_uf_asa_branca t /\
  rule_uf_barra (rule_uf_barra t) = rule_uf_barra t /\
  rule_operacao float_repr (rule_operacao float_repr t)
  = rule_operacao float_repr t /\
  rule_dedup (rule_dedup t) = rule_dedup t /\
  (exists u, rule_power (rule_power u) <> rule_power u).
Proof.
  split; [apply drop_named_idempotent |].
  split; [unfold rule_uf_asa_branca; rewrite !override_UF_on_rows;
          apply on_rows_idempotent; apply override_row_idempotent |].
  split; [unfold rule_uf_barra; rewrite !override_UF_on_rows;
          apply on_rows_idempotent; apply override_row_idempotent |].
  split.
  { apply on_rows_idempotent. intros r. unfold operacao_row.
    cbn [set_OPERACAO props OPERACAO]. rewrite normalize_operacao_idempotent.
    reflexivity. }
  split; [apply drop_duplicates_idempotent |].
  exists [(0, with_coordinates
                (mkFeature (Some "Juramento") None None CNone 150000%float
                           (0%float, 0%float) []))].
  intros H. apply (f_equal (map (fun ir => POT_MW (props (snd ir))))) in H.
  apply (f_equal (map (fun p => PrimFloat.eqb p 150%float))) in H.
  vm_compute in H. discriminate H.
Qed.

(** The rewriting of a row changes nothing the second time when the
    corrected power lies in [0.05, 100]. *)
Lemma fix_row_idempotent (r : row) :
  in_range (CorrectNominalPower (POT_MW (props r))) = true ->
  fix_row float_repr (fix_row float_repr r) = fix_row float_repr r.
Proof.
  intros Hrange.
  destruct r as [[n d u o p g oth] lon lat]. cbn [props POT_MW] in Hrange.
  unfold fix_row, operacao_row, power_row, override_row, name_is.
  cbn [props NOME_EOL set_UF set_POT_MW set_OPERACAO DEN_AEG UF OPERACAO
       POT_MW geometry other longitude latitude].
  destruct n as [n |];
    [destruct (String.eqb n "Asa Branca III") eqn:Ea,
              (String.eqb n "Barra XI") eqn:Eb |];
    repeat (cbn [props NOME_EOL set_UF set_POT_MW set_OPERACAO DEN_AEG UF
                 OPERACAO POT_MW geometry other longitude latitude];
            rewrite ?Ea, ?Eb);
    rewrite (in_range_fixed _ Hrange), normalize_operacao_idempotent;
    reflexivity.
Qed.

(** X14.  The corrector applied to its own output changes nothing, provided the
    corrected powers all lie in [0.05, 100]. *)
Theorem corrections_twice (t : table) :
  Forall (fun x => in_range (CorrectNominalPower (POT_MW (props (snd x))))
                   = true) t ->
  corrections float_repr (corrections float_repr t) = corrections float_repr t.
Proof.
  intros Hrange.
  assert (Hfix : on_rows (fix_row float_repr) (corrections float_repr t)
                 = corrections float_repr t).
  { unfold on_rows. rewrite <- (map_id (corrections float_repr t)) at 2.
    apply map_ext_in. intros [i r] Hin. simpl.
    apply in_corrections in Hin. destruct Hin as (r0 & Hin & -> & _).
    rewrite fix_row_idempotent; [reflexivity |].
    rewrite Forall_forall in Hrange. exact (Hrange _ Hin). }
  assert (Hdrop : drop_named "Serra de Gentio do Ouro XXIII"
                    (corrections float_repr t) = corrections float_repr t).
  { unfold drop_named. apply forallb_filter_id. apply forallb_forall.
    intros [i r] Hin. simpl. apply in_corrections in Hin.
    destruct Hin as (r0 & _ & -> & Hname).
    rewrite fix_row_name_is, Hname. reflexivity. }
  rewrite (corrections_shape float_repr (corrections float_repr t)).
  rewrite Hdrop, Hfix.
  rewrite (corrections_shape float_repr t) at 1 2.
  apply drop_duplicates_idempotent.
Qed.

End TwiceProperties.

(** ** Powers outside the ordinary *)

Section PowerEdges.
Local Open Scope float_scope.

(** Only NaN differs from itself. *)
Lemma is_nan_spec (p : float) :
  PrimFloat.is_nan p = true -> Prim2SF p = S754_nan.
Proof.
  unfold PrimFloat.is_nan. rewrite FloatAxioms.eqb_spec. unfold SFeqb.
  destruct (Prim2SF p) as [s | s | | s m e]; cbn [SFcompare].
  - intros H. discriminate H.
  - destruct s; intros H; discriminate H.
  - reflexivity.
  - rewrite Z.compare_refl.
    change (PosDef.Pos.compare_cont Eq m m) with (Pos.compare m m).
    rewrite Pos.compare_refl. destruct s; intros H; discriminate H.
Qed.

(** X15.  A missing power, a NaN, is returned as it is: it is neither above
    100 nor below 0.05. *)
Theorem CorrectNominalPower_nan (p : float) :
  PrimFloat.is_nan p = true ->
  CorrectNominalPower p = p /\ in_range p = false.
Proof.
  intros Hnan. apply is_nan_spec in Hnan.
  unfold CorrectNominalPower, in_range.
  rewrite !ltb_spec, !leb_spec, Hnan.
  change (Prim2SF 0.05) with (S754_finite false 7205759403792794 (-57)).
  change (Prim2SF 100) with (S754_finite false 7036874417766400 (-46)).
  split; reflexivity.
Qed.

(** X16.  A power that is zero or negative is multiplied by 1000: the sign is
    never looked at. *)
Theorem CorrectNominalPower_nonpositive (p : float) :
  (p <=? 0) = true -> CorrectNominalPower p = p * 1000.
Proof.
  intros Hle.
  assert (Hlt : (p <? 0.05) = true).
  { revert Hle. rewrite leb_spec, ltb_spec.
    change (Prim2SF 0.05) with (S754_finite false 7205759403792794 (-57)).
    change (Prim2SF 0) with (S754_zero false).
    unfold SFleb, SFltb.
    destruct (Prim2SF p) as [s | s | | s m e]; cbn [SFcompare];
      try (intros H; discriminate H); try reflexivity;
      destruct s; intros H; try discriminate H; reflexivity. }
  unfold CorrectNominalPower.
  rewrite (below_not_above p Hlt), Hlt. reflexivity.
Qed.

End PowerEdges.

Lemma CorrectNominalPower_nan_witness :
  CorrectNominalPower PrimFloat.nan = PrimFloat.nan.
Proof.
  apply (proj1 (CorrectNominalPower_nan PrimFloat.nan eq_refl)).
Defined.

Lemma CorrectNominalPower_nonpositive_witness :
  CorrectNominalPower (-3)%float = (-3 * 1000)%float.
Proof.
  apply (CorrectNominalPower_nonpositive (-3)%float). reflexivity.
Defined.

Lemma corrections_set_UF_witness :
  UF (props (fix_row Samples.sample_repr
               (with_coordinates
                  (mkFeature (Some "Asa Branca III") None None CNone
                             3032%float (0%float, 0%float) []))))
  = Some "RN".
Proof.
  apply (proj1 (corrections_set_UF Samples.sample_repr
           [(0, with_coordinates
                  (mkFeature (Some "Asa Branca III") None None CNone
                             3032%float (0%float, 0%float) []))] 0 _
           (or_introl eq_refl))).
  reflexivity.
Defined.

Lemma corrections_columns_witness :
  exists r0,
    In (0, r0) [(0, Samples.as_row Samples.juramento_1)] /\
    POT_MW (props (fix_row Samples.sample_repr
                     (Samples.as_row Samples.juramento_1)))
    = CorrectNominalPower (POT_MW (props r0)).
Proof.
  destruct (corrections_columns Samples.sample_repr
              [(0, Samples.as_row Samples.juramento_1)] 0
              (fix_row Samples.sample_repr (Samples.as_row Samples.juramento_1))
              (or_introl eq_refl))
    as (r0 & Hin & _ & _ & _ & _ & _ & _ & Hpot & _).
  exists r0. split; [exact Hin | exact Hpot].
Defined.

Lemma corrections_status_settled_witness :
  pd_isna (OPERACAO (props (fix_row Samples.sample_repr
                              (Samples.as_row Samples.juramento_1)))) = false.
Proof.
  apply (proj1 (corrections_status_settled Samples.sample_repr
           [(0, Samples.as_row Samples.juramento_1)] 0 _
           (or_introl eq_refl))).
Defined.

Lemma corrections_of_clean_table_witness :
  index (corrections Samples.sample_repr
           [(4, Samples.as_row Samples.juramento_1);
            (9, Samples.as_row Samples.serra_do_1)])
  = [4; 9].
Proof.
  apply (proj2 (proj2 (corrections_of_clean_table Samples.sample_repr
           [(4, Samples.as_row Samples.juramento_1);
            (9, Samples.as_row Samples.serra_do_1)]
           ltac:(repeat constructor) ltac:(repeat constructor)))).
Defined.

Lemma corrections_twice_witness :
  corrections Samples.sample_repr
    (corrections Samples.sample_repr
       [(0, Samples.as_row Samples.serra_do_1);
        (1, Samples.as_row Samples.serra_do_1_again);
        (2, Samples.as_row Samples.juramento_1)])
  = corrections Samples.sample_repr
      [(0, Samples.as_row Samples.serra_do_1);
       (1, Samples.as_row Samples.serra_do_1_again);
       (2, Samples.as_row Samples.juramento_1)].
Proof.
  apply (corrections_twice Samples.sample_repr).
  repeat constructor.
Defined.

(** ** The where clause of a batch request *)

Section WhereClause.
Local Open Scope string_scope.

Lemma append_length (a b : string) :
  String.length (a ++ b) = String.length a + String.length b.
Proof. induction a as [| c a IH]; simpl; [reflexivity | rewrite IH; reflexivity]. Qed.

Lemma append_cancel_l (p a b : string) : p ++ a = p ++ b -> a = b.
Proof.
  induction p as [| c p IH]; simpl; intros H; [exact H |].
  injection H as H. exact (IH H).
Qed.

Lemma append_cancel_r (a b c : string) : a ++ c = b ++ c -> a = b.
Proof.
  revert b. induction a as [| x a IH]; intros b H.
  - destruct b as [| y b]; [reflexivity |].
    apply (f_equal String.length) in H. simpl in H.
    rewrite append_length in H. lia.
  - destruct b as [| y b].
    + apply (f_equal String.length) in H. simpl in H.
      rewrite append_length in H. lia.
    + simpl in H. injection H as Hx H. subst y. f_equal. exact (IH b H).
Qed.

(** The decimal writing of an integer has no comma and is not empty, and
    different integers are written differently. *)
Lemma string_of_uint_comma_free (d : Decimal.uint) :
  comma_free (NilEmpty.string_of_uint d) = true.
Proof. induction d; simpl; try reflexivity; exact IHd. Qed.

Lemma int_str_comma_free (z : Z) : comma_free (int_str z) = true.
Proof.
  unfold int_str. destruct (Z.to_int z) as [d | d]; simpl;
    apply string_of_uint_comma_free.
Qed.

Lemma int_str_injective (a b : Z) : int_str a = int_str b -> a = b.
Proof.
  unfold int_str. intros H.
  pose proof (NilEmpty.isi (Z.to_int a)) as Ha.
  pose proof (NilEmpty.isi (Z.to_int b)) as Hb.
  rewrite H, Hb in Ha. injection Ha as Ha.
  rewrite <- (DecimalZ.of_to a), <- (DecimalZ.of_to b), Ha. reflexivity.
Qed.

Lemma int_str_nonempty (z : Z) : int_str z <> "".
Proof.
  intros H. unfold int_str in H.
  pose proof (NilEmpty.isi (Z.to_int z)) as Hisi. rewrite H in Hisi.
  change (NilEmpty.int_of_string "") with (Some (Decimal.Pos Decimal.Nil))
    in Hisi.
  injection Hisi as Hz.
  assert (Hzero : z = 0%Z).
  { rewrite <- (DecimalZ.of_to z), <- Hz. reflexivity. }
  subst z. discriminate H.
Qed.

Lemma join_cons (s : string) (rest : list string) :
  join "," (s :: rest) = s ++ join_tail rest.
Proof.
  destruct rest as [| s' rest]; simpl.
  - induction s as [| c s IH]; simpl; [reflexivity | rewrite <- IH; reflexivity].
  - reflexivity.
Qed.

(** Two comma-free texts, each followed by nothing or by a comma and
    more, are equal when the whole texts are. *)
Lemma split_at_comma (a b ra rb : string) :
  comma_free a = true -> comma_free b = true ->
  (ra = "" \/ exists ra', ra = String "," ra') ->
  (rb = "" \/ exists rb', rb = String "," rb') ->
  a ++ ra = b ++ rb -> a = b /\ ra = rb.
Proof.
  revert b. induction a as [| x a IH]; intros b Ha Hb Hra Hrb H.
  - destruct b as [| y b]; [split; [reflexivity | exact H] |].
    simpl in H, Hb. apply andb_true_iff in Hb. destruct Hb as [Hy _].
    destruct Hra as [-> | [ra' ->]]; [discriminate H |].
    injection H as Hc _. subst y. discriminate Hy.
  - simpl in Ha. apply andb_true_iff in Ha. destruct Ha as [Hx Ha].
    destruct b as [| y b].
    + simpl in H. destruct Hrb as [-> | [rb' ->]]; [discriminate H |].
      injection H as Hc _. subst x. discriminate Hx.
    + simpl in H, Hb. apply andb_true_iff in Hb. destruct Hb as [_ Hb].
      injection H as Hc H. subst y.
      destruct (IH b Ha Hb Hra Hrb H) as [-> ->]. split; reflexivity.
Qed.

Lemma join_tail_shape (rest : list string) :
  join_tail rest = "" \/ exists r, join_tail rest = String "," r.
Proof.
  destruct rest as [| s rest]; [left; reflexivity |].
  right. eexists. reflexivity.
Qed.

Lemma join_injective (l1 l2 : list string) :
  Forall (fun s => comma_free s = true /\ s <> "") l1 ->
  Forall (fun s => comma_free s = true /\ s <> "") l2 ->
  join "," l1 = join "," l2 -> l1 = l2.
Proof.
  revert l2. induction l1 as [| s1 r1 IH]; intros l2 H1 H2 H.
  - destruct l2 as [| s2 r2]; [reflexivity |].
    rewrite join_cons in H. inversion H2 as [| ? ? [_ Hne] _]; subst.
    destruct s2; [contradiction | discriminate H].
  - destruct l2 as [| s2 r2].
    + rewrite join_cons in H. inversion H1 as [| ? ? [_ Hne] _]; subst.
      destruct s1; [contradiction | discriminate H].
    + rewrite !join_cons in H.
      inversion H1 as [| ? ? [Hc1 _] Hr1]; subst.
      inversion H2 as [| ? ? [Hc2 _] Hr2]; subst.
      destruct (split_at_comma s1 s2 _ _ Hc1 Hc2 (join_tail_shape r1)
                  (join_tail_shape r2) H) as [-> Htail].
      f_equal. destruct r1 as [| a r1], r2 as [| b r2];
        try reflexivity; try discriminate Htail.
      apply IH; [exact Hr1 | exact Hr2 |].
      unfold join_tail in Htail. simpl in Htail.
      injection Htail as Htail. exact Htail.
Qed.

(** X17.  The where clause of a batch of integer identifiers determines the
    batch: two lists of identifiers give the same clause only when they
    are the same list. *)
Theorem where_condition_injective (ids1 ids2 : list Z) :
  where_condition (map int_str ids1) = where_condition (map int_str ids2) ->
  ids1 = ids2.
Proof.
  unfold where_condition. intros H.
  apply append_cancel_l in H. apply append_cancel_r in H.
  assert (Hok : forall ids : list Z,
            Forall (fun s => comma_free s = true /\ s <> "")
                   (map int_str ids)).
  { intros ids. apply Forall_forall. intros s Hin.
    apply in_map_iff in Hin. destruct Hin as (z & <- & _).
    split; [apply int_str_comma_free | apply int_str_nonempty]. }
  apply join_injective in H; [| apply Hok | apply Hok].
  revert ids2 H. induction ids1 as [| a ids1 IH]; intros [| b ids2] H;
    try reflexivity; try discriminate H.
  simpl in H. injection H as Ha H. f_equal.
  - apply int_str_injective. exact Ha.
  - apply IH. exact H.
Qed.

End WhereClause.

Lemma where_condition_injective_witness :
  where_condition (map int_str [1; 20; 300]%Z) = "OBJECTID IN (1,20,300)" /\
  [1; 20; 300]%Z = [1; 20; 300]%Z.
Proof.
  split; [reflexivity |].
  apply (where_condition_injective [1; 20; 300]%Z [1; 20; 300]%Z).
  reflexivity.
Defined.

(** ** Coordinates of the written table *)

Section CoordinateProperties.

Variable float_repr : float -> string.

Lemma fix_row_coordinates (r : row) :
  longitude (fix_row float_repr r) = longitude r /\
  latitude (fix_row float_repr r) = latitude r /\
  geometry (props (fix_row float_repr r)) = geometry (props r).
Proof.
  unfold fix_row, operacao_row, power_row, override_row.
  destruct (name_is "Asa Branca III" r);
    match goal with
    | |- context [name_is "Barra XI" ?x] => destruct (name_is "Barra XI" x)
    end; repeat split; reflexivity.
Qed.

(** X18.  In the table a run writes, the longitude and latitude of every row
    are the x and the y of its own geometry. *)
Theorem run_coordinates (srv : service) (log : list request) (t : table)
  (i : nat) (r : row) :
  run float_repr srv = (log, inr t) ->
  In (i, r) t ->
  longitude r = fst (geometry (props r)) /\
  latitude r = snd (geometry (props r)).
Proof.
  intros Hrun Hin. destruct (run_output float_repr srv log t Hrun) as [fs ->].
  apply in_corrections in Hin. destruct Hin as (r0 & Hin0 & -> & _).
  destruct (fix_row_coordinates r0) as (Hlon & Hlat & Hgeo).
  unfold add_coordinates in Hin0. apply in_map_iff in Hin0.
  destruct Hin0 as ([j f] & E & _). simpl in E. inversion E; subst.
  rewrite Hlon, Hlat, Hgeo. split; reflexivity.
Qed.

End CoordinateProperties.

Lemma run_coordinates_witness :
  longitude (fix_row Samples.sample_repr
               (with_coordinates Samples.juramento_1))
  = fst (geometry (props (fix_row Samples.sample_repr
                            (with_coordinates Samples.juramento_1)))).
Proof.
  apply (run_coordinates Samples.sample_repr
           (Samples.steady_service [PyInt 1; PyInt 2])
           [IdsQuery; BatchQuery (PyList [PyInt 1; PyInt 2])]
           [(0, fix_row Samples.sample_repr
                  (with_coordinates Samples.juramento_1))] 0).
  - vm_compute. reflexivity.
  - left. reflexivity.
Defined.
